(** * Consent-gated recording in [Zoom.cpp]

    A shallow embedding of the consent logic of [src/Zoom.cpp]: the roster
    ([participants]), the consent store ([consentStatus]), the
    [recordingStarted] flag, the poll loop [checkConsentStatus], the update
    entry point [onConsentUpdate], the reminder [sendConsentReminder], the
    second gate [startRecordingIfAllConsented] and the thread-spawning
    [startConsentCheck].

    The Zoom meeting SDK and jsoncpp are external to the repository.  Their
    answers are inputs of the model: every operation that talks to the SDK
    takes a snapshot [Sdk] of what the SDK would answer, and every poll
    cycle takes the outcome of [Json::Reader::parse] on the response body.
    Calls that leave the process are recorded in a trace of [Event]s. *)

From stdpp Require Import base gmap sets list strings sorting.
From Stdlib Require Import NArith Ascii Lia.


(** ** SDK error codes *)

(** [SDKError] is an enum of the SDK.  The codes [Zoom.cpp] names are kept;
    every other code is [SDKERR_OTHER]. *)
Inductive SDKError : Type :=
| SDKERR_SUCCESS
| SDKERR_WRONG_USAGE
| SDKERR_UNINITIALIZE
| SDKERR_INTERNAL_ERROR
| SDKERR_OTHER (code : nat).

(** [Zoom::hasError]: [e != SDKERR_SUCCESS] (the log line is not modelled). *)
Definition hasError (e : SDKError) : bool :=
  match e with
  | SDKERR_SUCCESS => false
  | _ => true
  end.

(** ** Observable effects *)

Inductive Event : Type :=
| EvFetchConsent                  (* the asynchronous consent request of a poll cycle *)
| EvStartRawRecording             (* control enters [Zoom::startRawRecording] *)
| EvSdkStartRawRecording          (* [recCtrl->StartRawRecording()] *)
| EvSdkRequestPrivilege           (* [recCtrl->RequestLocalRecordingPrivilege()] *)
| EvChat (text : string).         (* [chatCtrl->SendChatMsgTo(msg)], broadcast *)

Definition is_start (e : Event) : bool :=
  match e with EvStartRawRecording => true | _ => false end.

Definition is_fetch (e : Event) : bool :=
  match e with EvFetchConsent => true | _ => false end.

Definition is_chat (e : Event) : bool :=
  match e with EvChat _ => true | _ => false end.

(** Number of times the recording-start operation was invoked in a trace. *)
Definition starts (tr : list Event) : nat := length (filter is_start tr).

Definition fetches (tr : list Event) : nat := length (filter is_fetch tr).

(** ** What the SDK answers *)

Record ChatController : Type := mkChat {
  chatMessageBuilder : bool;      (* [GetChatMessageBuilder()] is not null *)
  chatBuild : bool;               (* [msgBuilder->Build()] is not null *)
  chatSend : SDKError             (* result of [SendChatMsgTo] *)
}.

Record RecordingController : Type := mkRec {
  canStartRawRecording : SDKError;
  sdkStartRawRecording : SDKError;
  requestLocalRecordingPrivilege : SDKError
}.

Record ParticipantsController : Type := mkPart {
  participantsList : option (list N);        (* [GetParticipantsList()], user ids *)
  userByUserID : N -> option string          (* [GetUserByUserID(id)->GetUserName()] *)
}.

Record Sdk : Type := mkSdk {
  meetingParticipantsController : option ParticipantsController;
  meetingChatController : option ChatController;
  meetingRecordingController : RecordingController;
  useRawVideo : bool;
  createRenderer : SDKError;
  videoSubscribe : SDKError;
  useRawAudio : bool;
  audioRawdataHelper : bool;      (* [GetAudioRawdataHelper()] is not null *)
  audioSubscribe : SDKError
}.

(** ** The coordinator's state *)

(** The three members of [Zoom] the consent logic reads and writes.  The
    class declaration is not part of the sources; the members are used as a
    set of names ([clear], [insert], range-for), a map from names to [bool]
    ([operator[]], range-for over entries) and a flag. *)
Record Zoom : Type := mkZoom {
  participants : gset string;
  consentStatus : gmap string bool;
  recordingStarted : bool
}.

Definition set_participants (p : gset string) (z : Zoom) : Zoom :=
  mkZoom p (consentStatus z) (recordingStarted z).

Definition set_consentStatus (c : gmap string bool) (z : Zoom) : Zoom :=
  mkZoom (participants z) c (recordingStarted z).

Definition set_recordingStarted (b : bool) (z : Zoom) : Zoom :=
  mkZoom (participants z) (consentStatus z) b.

(** A freshly constructed coordinator. *)
Definition fresh : Zoom := mkZoom ∅ ∅ false.

(** Modelled from the spec: the declaration of [participants] ([Zoom.h]) is
    not among the sources.  The spec has the roster as a set of participant
    ids; it is taken as a [std::set<std::string>], which a range-for walks in
    ascending order of the names, compared byte by byte. *)
Definition rosterOrder (roster : gset string) : list string :=
  merge_sort String.le (elements roster).

(** [consentStatus[user]] as an rvalue: a missing key is inserted with the
    value-initialised [false] and that value is returned. *)
Definition subscript (c : gmap string bool) (user : string) : bool * gmap string bool :=
  match c !! user with
  | Some b => (b, c)
  | None => (false, <[user := false]> c)
  end.

(** ** Roster refresh *)

(** The loop body of [fetchParticipants]: ids equal to 0 and ids without
    user info are skipped, every other id contributes its user name. *)
Fixpoint collectNames (user : N -> option string) (ids : list N)
    (acc : gset string) : gset string :=
  match ids with
  | [] => acc
  | userId :: rest =>
      if N.eqb userId 0 then collectNames user rest acc
      else match user userId with
           | Some userName => collectNames user rest ({[userName]} ∪ acc)
           | None => collectNames user rest acc
           end
  end.

(** [Zoom::fetchParticipants]. *)
Definition fetchParticipants (sdk : Sdk) (z : Zoom) : Zoom :=
  match meetingParticipantsController sdk with
  | None => z
  | Some pc =>
      match participantsList pc with
      | None => z
      | Some ids => set_participants (collectNames (userByUserID pc) ids ∅) z
      end
  end.

(** ** Chat *)

(** [Zoom::sendMessage]: the events it produces. *)
Definition sendMessage (sdk : Sdk) (message : string) : list Event :=
  match meetingChatController sdk with
  | None => []
  | Some chat =>
      if chatMessageBuilder chat then
        if chatBuild chat then [EvChat message] else []
      else []
  end.

Definition consentMessage : string :=
  "We would like to record this meeting. Please provide your consent by visiting the following link: https://testui.identifai.info/consent-form?bot_id=25aad7b0-a6a5-4c1e-b379-e44eb85e1bc7".

(** [Zoom::sendConsentRequest]. *)
Definition sendConsentRequest (chatCtrl : option ChatController) : list Event * SDKError :=
  match chatCtrl with
  | None => ([], SDKERR_UNINITIALIZE)
  | Some chat =>
      if chatMessageBuilder chat then
        if chatBuild chat then
          ([EvChat consentMessage],
           if hasError (chatSend chat) then chatSend chat else SDKERR_SUCCESS)
        else ([], SDKERR_UNINITIALIZE)
      else ([], SDKERR_UNINITIALIZE)
  end.

(** ** Starting the recording *)

(** The part of [startRawRecording] after [StartRawRecording] succeeded:
    the raw video and raw audio subscriptions.  With raw video, once the
    renderer is created, the source reads item 0 of the participants list
    without testing the controller or the list for null (lines 265-266); the
    answer given here is that of a run in which both are there
    ([rawVideoSafe]). *)
Definition subscribeRaw (sdk : Sdk) : SDKError :=
  if useRawVideo sdk && hasError (createRenderer sdk) then createRenderer sdk
  else if useRawVideo sdk && hasError (videoSubscribe sdk) then videoSubscribe sdk
  else if useRawAudio sdk && negb (audioRawdataHelper sdk) then SDKERR_UNINITIALIZE
  else if useRawAudio sdk && hasError (audioSubscribe sdk) then audioSubscribe sdk
  else SDKERR_SUCCESS.

(** [Zoom::startRawRecording]. *)
Definition startRawRecording (sdk : Sdk) : list Event * SDKError :=
  let recCtrl := meetingRecordingController sdk in
  if hasError (canStartRawRecording recCtrl) then
    let '(tr, err) := sendConsentRequest (meetingChatController sdk) in
    if hasError err then (EvStartRawRecording :: tr, err)
    else (EvStartRawRecording :: tr ++ [EvSdkRequestPrivilege],
          requestLocalRecordingPrivilege recCtrl)
  else if hasError (sdkStartRawRecording recCtrl) then
    ([EvStartRawRecording; EvSdkStartRawRecording], sdkStartRawRecording recCtrl)
  else
    ([EvStartRawRecording; EvSdkStartRawRecording], subscribeRaw sdk).

(** ** Reminder *)

Definition reminderHeader : string := "Please provide your consent for recording.".

(** The line added for one participant: a line feed, then "- " and the name. *)
Definition reminderLine (user : string) : string :=
  String "010"%char ("- " +:+ user).

(** The loop of [sendConsentReminder] over the roster in iteration order:
    each [consentStatus[user]] may insert a [false] entry. *)
Fixpoint buildReminder (users : list string) (c : gmap string bool)
    (reminder : string) : gmap string bool * string :=
  match users with
  | [] => (c, reminder)
  | user :: rest =>
      let '(b, c') := subscript c user in
      buildReminder rest c' (if b then reminder else reminder +:+ reminderLine user)
  end.

(** [Zoom::sendConsentReminder]. *)
Definition sendConsentReminder (sdk : Sdk) (z : Zoom) : Zoom * list Event :=
  let '(c, reminder) :=
    buildReminder (rosterOrder (participants z)) (consentStatus z) reminderHeader in
  (set_consentStatus c z, sendMessage sdk reminder).

(** ** Consent update *)

(** First loop of [onConsentUpdate]: every roster name is assigned whether
    it occurs in the poll result. *)
Fixpoint assignConsent (users : list string) (consentingUsers : list string)
    (c : gmap string bool) : gmap string bool :=
  match users with
  | [] => c
  | user :: rest =>
      assignConsent rest consentingUsers
        (<[user := bool_decide (user ∈ consentingUsers)]> c)
  end.

(** [std::all_of] over the roster with the predicate [consentStatus[user]]:
    it stops at the first [false]. *)
Fixpoint allOfRoster (users : list string) (c : gmap string bool)
    : bool * gmap string bool :=
  match users with
  | [] => (true, c)
  | user :: rest =>
      let '(b, c') := subscript c user in
      if b then allOfRoster rest c' else (false, c')
  end.

(** [Zoom::onConsentUpdate].  The result of [startRawRecording] is dropped,
    as in the source. *)
Definition onConsentUpdate (sdk : Sdk) (consentingUsers : list string) (z : Zoom)
    : Zoom * list Event :=
  let roster := rosterOrder (participants z) in
  let c1 := assignConsent roster consentingUsers (consentStatus z) in
  let '(allConsented, c2) := allOfRoster roster c1 in
  let z2 := set_consentStatus c2 z in
  if allConsented then
    (set_recordingStarted true z2, (startRawRecording sdk).1)
  else
    sendConsentReminder sdk z2.

(** [Zoom::startRecordingIfAllConsented]: [std::all_of] over the entries of
    the store; the flag is not involved. *)
Definition allEntries (c : gmap string bool) : bool :=
  forallb snd (map_to_list c).

Definition startRecordingIfAllConsented (sdk : Sdk) (z : Zoom) : Zoom * list Event :=
  if allEntries (consentStatus z) then (z, (startRawRecording sdk).1)
  else (z, []).

(** ** The consent response *)

(** A [Json::Value] as [checkConsentStatus] uses it.  A number carries the
    text [asString] renders for it; the members of an object are listed in
    the order in which the object is iterated. *)
#[local] Unset Elimination Schemes.
Inductive Json : Type :=
| JNull
| JBool (b : bool)
| JNumber (text : string)
| JString (s : string)
| JArray (items : list Json)
| JObject (members : list (string * Json)).
#[local] Set Elimination Schemes.

Fixpoint findMember (key : string) (members : list (string * Json)) : option Json :=
  match members with
  | [] => None
  | (k, v) :: rest => if String.eqb k key then Some v else findMember key rest
  end.

(** [jsonData[key]]: a missing member reads as null; on a value that is
    neither an object nor null the library raises ([None]). *)
Definition jsonMember (key : string) (v : Json) : option Json :=
  match v with
  | JNull => Some JNull
  | JObject members =>
      Some (match findMember key members with Some x => x | None => JNull end)
  | _ => None
  end.

(** The values a range-for visits: the items of an array, the member values
    of an object, nothing for any other value. *)
Definition jsonItems (v : Json) : list Json :=
  match v with
  | JArray items => items
  | JObject members => members.*2
  | _ => []
  end.

(** [user.asString()]: arrays and objects are not convertible ([None]). *)
Definition asString (v : Json) : option string :=
  match v with
  | JNull => Some ""
  | JBool b => Some (if b then "true" else "false")
  | JNumber text => Some text
  | JString s => Some s
  | JArray _ | JObject _ => None
  end.

(** The loop that fills [users] by [push_back]. *)
Fixpoint collectUsers (items : list Json) : option (list string) :=
  match items with
  | [] => Some []
  | user :: rest =>
      match asString user with
      | None => None
      | Some s =>
          match collectUsers rest with
          | None => None
          | Some users => Some (s :: users)
          end
      end
  end.

(** Lines 380-384: the poll result read off a parsed response. *)
Definition readConsentingUsers (jsonData : Json) : option (list string) :=
  match jsonMember "consenting_users" jsonData with
  | None => None
  | Some consentingUsers => collectUsers (jsonItems consentingUsers)
  end.

(** Outcome of [reader.parse(result, jsonData)]. *)
Inductive ParseResult : Type :=
| ParseFailed
| Parsed (jsonData : Json).

(** The response the source hard-wires in place of the HTTP request. *)
Definition dummyApiResponse : ParseResult :=
  Parsed (JObject [("consenting_users",
                    JArray [JString "IdentifAI KYE"; JString "Harshit Soni"])]).

(** ** The poll loop *)

(** What one pass through the loop body meets: the SDK's answers during the
    pass and the parsed response.  The source's response is always
    [dummyApiResponse]; the model lets it vary, as the HTTP request it
    stands for would. *)
Record Cycle : Type := mkCycle {
  cycleSdk : Sdk;
  cycleResponse : ParseResult
}.

(** One pass through the body of the [while] loop.  The flag in the result
    tells whether the pass ended in an exception raised by jsoncpp, which
    nothing catches. *)
Definition pollCycle (cy : Cycle) (z : Zoom) : Zoom * list Event * bool :=
  let z1 := fetchParticipants (cycleSdk cy) z in
  match cycleResponse cy with
  | ParseFailed => (z1, [EvFetchConsent], false)
  | Parsed jsonData =>
      match readConsentingUsers jsonData with
      | None => (z1, [EvFetchConsent], true)
      | Some users =>
          let '(z2, tr) := onConsentUpdate (cycleSdk cy) users z1 in
          (z2, EvFetchConsent :: tr, false)
      end
  end.

Inductive LoopStatus : Type :=
| Exited        (* the guard [!recordingStarted] was found false *)
| Running       (* the supplied cycles are used up, the loop goes on *)
| Thrown.      (* an uncaught exception left the loop *)

(** [Zoom::checkConsentStatus], run for as many passes as [cycles] holds. *)
Fixpoint checkConsentStatus (cycles : list Cycle) (z : Zoom)
    : Zoom * list Event * LoopStatus :=
  if recordingStarted z then (z, [], Exited)
  else
    match cycles with
    | [] => (z, [], Running)
    | cy :: rest =>
        let '(z1, tr1, raised) := pollCycle cy z in
        if raised then (z1, tr1, Thrown)
        else
          let '(z2, tr2, st) := checkConsentStatus rest z1 in
          (z2, tr1 ++ tr2, st)
    end.

(** ** Threads *)

(** Where a poller thread stands: about to test the loop guard, inside the
    body (asleep, then working), or gone. *)
Inductive PollerPc : Type :=
| AtGuard
| InBody
| Finished
| Raised.

(** The two kinds of detached thread [startConsentCheck] creates. *)
Inductive Task : Type :=
| Reminder (pending : bool)
| Poller (pc : PollerPc).

Definition is_poller (t : Task) : bool :=
  match t with Poller _ => true | Reminder _ => false end.

Definition is_reminder (t : Task) : bool :=
  match t with Reminder _ => true | Poller _ => false end.

(** The object, the threads started on it, and everything done so far. *)
Record System : Type := mkSystem {
  zoom : Zoom;
  tasks : list Task;
  trace : list Event
}.

Definition boot : System := mkSystem fresh [] [].

Definition pollers (sys : System) : nat := length (filter is_poller (tasks sys)).

Definition reminders (sys : System) : nat := length (filter is_reminder (tasks sys)).

(** [Zoom::startConsentCheck]: one reminder thread and one poller thread
    are created and detached, whatever is already running. *)
Definition startConsentCheck (sys : System) : System :=
  mkSystem (zoom sys) (tasks sys ++ [Reminder true; Poller AtGuard]) (trace sys).

(** One scheduling step of a task.  The steps are coarser than the real
    interleavings (a loop body runs in one piece), so every run of the
    model is a run of the program. *)
Definition stepTask (cy : Cycle) (t : Task) (z : Zoom) : Task * Zoom * list Event :=
  match t with
  | Reminder true =>
      if recordingStarted z then (Reminder false, z, [])
      else let '(z', tr) := sendConsentReminder (cycleSdk cy) z in
           (Reminder false, z', tr)
  | Reminder false => (t, z, [])
  | Poller AtGuard =>
      if recordingStarted z then (Poller Finished, z, [])
      else (Poller InBody, z, [])
  | Poller InBody =>
      let '(z', tr, raised) := pollCycle cy z in
      (Poller (if raised then Raised else AtGuard), z', tr)
  | Poller _ => (t, z, [])
  end.

(** Task number [i] takes a step in the environment [cy]. *)
Definition step (i : nat) (cy : Cycle) (sys : System) : System :=
  match tasks sys !! i with
  | None => sys
  | Some t =>
      let '(t', z', tr) := stepTask cy t (zoom sys) in
      mkSystem z' (<[i := t']> (tasks sys)) (trace sys ++ tr)
  end.

Fixpoint run (schedule : list (nat * Cycle)) (sys : System) : System :=
  match schedule with
  | [] => sys
  | (i, cy) :: rest => run rest (step i cy sys)
  end.

(** ** Bringing the SDK up, signing in, joining *)

(** [init], [createServices], [auth], [generateJWT] and [join].  What the
    SDK answers is again an input; the calls made are listed in order. *)
Module Lifecycle.

(** The claims [generateJWT] puts into the token and the secret it signs
    with (HS256).  Times are in seconds. *)
Record Jwt : Type := mkJwt {
  typ : string;
  iat : Z;
  exp : Z;
  appKey : string;
  tokenExp : Z;
  hs256Secret : string
}.

(** The fields [join] sets in [JoinParam4WithoutLogin]; a pointer field is
    [None] when it is null or left unset. *)
Record JoinParam : Type := mkJoinParam {
  meetingNumber : N;
  userName : string;
  psw : string;
  vanityID : option string;
  customer_key : option string;
  webinarToken : option string;
  isVideoOff : bool;
  isAudioOff : bool;
  userZAK : option string;
  app_privilege_token : option string
}.

Inductive Call : Type :=
| CallInitSDK
| CallCreateMeetingService
| CallCreateSettingService
| CallMeetingSetEvent
| CallCreateAuthService
| CallAuthSetEvent
| CallSDKAuth (jwt_token : option Jwt)
| CallEnableAutoJoinAudio
| CallJoin (param : JoinParam).

(** The configuration values the three functions read. *)
Record Config : Type := mkConfig {
  clientId : string;
  clientSecret : string;
  meetingId : string;
  password : string;
  displayName : string;
  zak : string;
  joinToken : string;
  useRawAudio : bool
}.

(** [std::string::empty]. *)
Definition empty (s : string) : bool :=
  match s with EmptyString => true | String _ _ => false end.

(** *** [init] and [createServices] *)

Record Bring : Type := mkBring {
  initSDK : SDKError;
  createMeetingService : SDKError;
  createSettingService : SDKError;
  meetingSetEvent : SDKError;
  createAuthService : SDKError
}.

Definition createServices (b : Bring) : list Call * SDKError :=
  if hasError (createMeetingService b) then
    ([CallCreateMeetingService], createMeetingService b)
  else if hasError (createSettingService b) then
    ([CallCreateMeetingService; CallCreateSettingService], createSettingService b)
  else if hasError (meetingSetEvent b) then
    ([CallCreateMeetingService; CallCreateSettingService; CallMeetingSetEvent],
     meetingSetEvent b)
  else
    ([CallCreateMeetingService; CallCreateSettingService; CallMeetingSetEvent;
      CallCreateAuthService],
     createAuthService b).

Definition init (b : Bring) : list Call * SDKError :=
  if hasError (initSDK b) then ([CallInitSDK], initSDK b)
  else (CallInitSDK :: (createServices b).1, (createServices b).2).

(** Make the calls in order until one fails; answer what the last call
    made answered. *)
Fixpoint untilFailure (steps : list (Call * SDKError)) : list Call * SDKError :=
  match steps with
  | [] => ([], SDKERR_SUCCESS)
  | (call, result) :: rest =>
      match rest with
      | [] => ([call], result)
      | _ :: _ =>
          if hasError result then ([call], result)
          else (call :: (untilFailure rest).1, (untilFailure rest).2)
      end
  end.

(** *** [auth] and [generateJWT] *)

Record AuthState : Type := mkAuthState {
  m_iat : Z;
  m_exp : Z;
  m_jwt : option Jwt      (* [None]: the member still holds the empty string *)
}.

Definition hours24 : Z := 24 * 3600.

(** [Zoom::generateJWT] at clock reading [now]. *)
Definition generateJWT (now : Z) (key secret : string) : AuthState :=
  mkAuthState now (now + hours24)
              (Some (mkJwt "JWT" now (now + hours24) key (now + hours24) secret)).

(** [Zoom::auth]. *)
Definition auth (cfg : Config) (now : Z) (setEvent sdkAuth : SDKError) (st : AuthState)
    : AuthState * list Call * SDKError :=
  if empty (clientId cfg) then (st, [], SDKERR_UNINITIALIZE)
  else if empty (clientSecret cfg) then (st, [], SDKERR_UNINITIALIZE)
  else if hasError setEvent then (st, [CallAuthSetEvent], setEvent)
  else
    let st' := generateJWT now (clientId cfg) (clientSecret cfg) in
    (st', [CallAuthSetEvent; CallSDKAuth (m_jwt st')], sdkAuth).

(** *** [join] *)

(** [std::stoull] in base 10: white space is skipped, one sign is accepted,
    the digits that follow are converted and whatever comes after them is
    ignored.  No digit: [invalid_argument]; a value above [ULLONG_MAX]:
    [out_of_range]; a minus sign negates in the unsigned type. *)
Inductive StoullError : Type := invalid_argument | out_of_range.

Definition isspace (c : ascii) : bool :=
  let n := N_of_ascii c in N.eqb n 32 || (N.leb 9 n && N.leb n 13).

Definition digit (c : ascii) : option N :=
  let n := N_of_ascii c in
  if N.leb 48 n && N.leb n 57 then Some (n - 48)%N else None.

Fixpoint skipSpace (s : string) : string :=
  match s with
  | String c rest => if isspace c then skipSpace rest else s
  | EmptyString => s
  end.

Fixpoint digits (s : string) (acc : N) : N :=
  match s with
  | String c rest =>
      match digit c with
      | Some d => digits rest (10 * acc + d)%N
      | None => acc
      end
  | EmptyString => acc
  end.

Definition startsWithDigit (s : string) : bool :=
  match s with
  | String c _ => match digit c with Some _ => true | None => false end
  | EmptyString => false
  end.

Definition ULLONG_MAX : N := (2 ^ 64 - 1)%N.

(** An optional sign in front: whether it is a minus, and what follows. *)
Definition splitSign (s : string) : bool * string :=
  match s with
  | String "+" rest => (false, rest)
  | String "-" rest => (true, rest)
  | _ => (false, s)
  end.

Definition stoull (s : string) : StoullError + N :=
  let '(negative, s2) := splitSign (skipSpace s) in
  if startsWithDigit s2 then
    let v := digits s2 0 in
    if N.ltb ULLONG_MAX v then inl out_of_range
    else inr (if negative then ((2 ^ 64 - v) mod 2 ^ 64)%N else v)
  else inl invalid_argument.

(** How a call of [join] ends. *)
Inductive Outcome : Type :=
| Returned (err : SDKError)
| Threw (what : StoullError).

Definition nonEmpty (s : string) : option string :=
  if empty s then None else Some s.

(** [Zoom::join]; [audioSettings] tells whether [GetAudioSettings()] is not
    null, [joinResult] is what [Join] answers. *)
Definition join (cfg : Config) (audioSettings : bool) (joinResult : SDKError)
    : list Call * Outcome :=
  if empty (meetingId cfg) then ([], Returned SDKERR_UNINITIALIZE)
  else if empty (password cfg) then ([], Returned SDKERR_UNINITIALIZE)
  else if empty (displayName cfg) then ([], Returned SDKERR_UNINITIALIZE)
  else
    match stoull (meetingId cfg) with
    | inl what => ([], Threw what)
    | inr number =>
        let param :=
          mkJoinParam number (displayName cfg) (password cfg) None None None
                      false false (nonEmpty (zak cfg)) (nonEmpty (joinToken cfg)) in
        if useRawAudio cfg then
          if audioSettings then
            ([CallEnableAutoJoinAudio; CallJoin param], Returned joinResult)
          else ([], Returned SDKERR_INTERNAL_ERROR)
        else ([CallJoin param], Returned joinResult)
    end.

(** A configuration with the given meeting id and nothing else missing. *)
Definition configFor (mid : string) : Config :=
  mkConfig "client" "secret" mid "pass" "Recorder" "" "" false.

Definition isDigit (c : ascii) : bool :=
  match digit c with Some _ => true | None => false end.

(** A character with which no number can begin: not white space, not a
    sign, not a digit. *)
Definition beginsNoNumber (c : ascii) : bool :=
  negb (isspace c) && negb (isDigit c)
    && negb (Ascii.eqb c "+") && negb (Ascii.eqb c "-").

(** Every character is a decimal digit. *)
Fixpoint allDigits (s : string) : bool :=
  match s with
  | String c rest =>
      match digit c with Some _ => allDigits rest | None => false end
  | EmptyString => true
  end.

Definition withMeetingId (mid : string) (cfg : Config) : Config :=
  mkConfig (clientId cfg) (clientSecret cfg) mid (password cfg) (displayName cfg)
           (zak cfg) (joinToken cfg) (useRawAudio cfg).

End Lifecycle.

(** ** Closed forms used in the statements *)

(** Every roster name occurs in the poll result. *)
Definition rosterInPoll (z : Zoom) (consentingUsers : list string) : bool :=
  forallb (λ user, bool_decide (user ∈ consentingUsers)) (rosterOrder (participants z)).


(** The response body of the cycle did not parse. *)
Definition parseFails (cy : Cycle) : bool :=
  match cycleResponse cy with ParseFailed => true | Parsed _ => false end.

Definition chats (tr : list Event) : nat := length (filter is_chat tr).


(** The schedule of a poller that runs alone as task 0: for every cycle one
    step at the guard and one through the body. *)
Definition solo (cycles : list Cycle) : list (nat * Cycle) :=
  flat_map (λ cy, [(0, cy); (0, cy)]) cycles.

(** The participants list that line 266 reads is there whenever raw video
    is configured. *)
Definition rawVideoSafe (sdk : Sdk) : bool :=
  negb (useRawVideo sdk) ||
  match meetingParticipantsController sdk with
  | Some pc => match participantsList pc with Some _ => true | None => false end
  | None => false
  end.

(** The chat of the cycle can deliver a message. *)
Definition chatReady (cy : Cycle) : bool :=
  match meetingChatController (cycleSdk cy) with
  | Some chat => chatMessageBuilder chat && chatBuild chat
  | None => false
  end.

(** The names the hard-wired response lists. *)
Definition hardwiredNames : list string := ["IdentifAI KYE"; "Harshit Soni"].

(** The participants list of the cycle holds an id whose user name is not
    one of the hard-wired names. *)
Definition outsiderPresent (cy : Cycle) : bool :=
  match meetingParticipantsController (cycleSdk cy) with
  | Some pc =>
      match participantsList pc with
      | Some ids =>
          existsb (λ userId,
                     negb (N.eqb userId 0) &&
                     match userByUserID pc userId with
                     | Some name => negb (bool_decide (name ∈ hardwiredNames))
                     | None => false
                     end) ids
      | None => false
      end
  | None => false
  end.

(** The task is a poller inside the loop body. *)
Definition is_inBody (t : Task) : bool :=
  match t with Poller InBody => true | _ => false end.

Definition inBody (sys : System) : nat := length (filter is_inBody (tasks sys)).

(** ** Sample meetings *)

(** A participants controller that knows the listed (id, name) pairs. *)
Fixpoint nameOf (people : list (N * string)) (userId : N) : option string :=
  match people with
  | [] => None
  | (i, name) :: rest => if N.eqb i userId then Some name else nameOf rest userId
  end.

(** An SDK in which the listed people are present and every call succeeds,
    except that [StartRawRecording] answers [startResult]. *)
Definition meeting (people : list (N * string)) (startResult : SDKError) : Sdk :=
  mkSdk (Some (mkPart (Some (people.*1)) (nameOf people)))
        (Some (mkChat true true SDKERR_SUCCESS))
        (mkRec SDKERR_SUCCESS startResult SDKERR_SUCCESS)
        false SDKERR_SUCCESS SDKERR_SUCCESS false false SDKERR_SUCCESS.

(** A well-formed response naming the given users. *)
Definition response (users : list string) : ParseResult :=
  Parsed (JObject [("consenting_users", JArray (JString <$> users))]).

(** Alice alone; Alice with Zed; Alice under two user ids. *)
Definition aliceOnly : list (N * string) := [(1%N, "Alice")].
Definition aliceAndZed : list (N * string) := [(1%N, "Alice"); (2%N, "Zed")].
Definition twoAlices : list (N * string) := [(1%N, "Alice"); (7%N, "Alice")].

(** Alice is in the meeting and her consent is recorded. *)
Definition aliceConsented : Zoom := mkZoom {["Alice"]} {["Alice" := true]} false.

(** Zed was in the meeting with Alice during the first poll cycle and has
    left before the second, in which Alice consents. *)
Definition zedLeaves : list Cycle :=
  [mkCycle (meeting aliceAndZed SDKERR_SUCCESS) (response []);
   mkCycle (meeting aliceOnly SDKERR_SUCCESS) (response ["Alice"])].

(** The SDK refuses to start the raw recording. *)
Definition startFails : Sdk := meeting aliceOnly SDKERR_INTERNAL_ERROR.

(** The meeting the hard-wired response speaks of, and a poll cycle in it. *)
Definition kyeAndSoni : list (N * string) := [(1%N, "IdentifAI KYE"); (2%N, "Harshit Soni")].
Definition dummyCycle : Cycle := mkCycle (meeting kyeAndSoni SDKERR_SUCCESS) dummyApiResponse.

(** [startConsentCheck] was called twice; both pollers (tasks 1 and 3) pass
    the loop guard, then both run the loop body. *)
Definition twoPollers : list (nat * Cycle) :=
  [(1, dummyCycle); (3, dummyCycle); (1, dummyCycle); (3, dummyCycle)].


(** Nobody has consented yet. *)
Definition waitingCycle : Cycle := mkCycle (meeting aliceOnly SDKERR_SUCCESS) (response []).

(** After two calls of [startConsentCheck]: both reminder threads (tasks 0
    and 2) fire; both pollers (tasks 1 and 3) make one pass each. *)
Definition bothReminders : list (nat * Cycle) :=
  [(0, waitingCycle); (2, waitingCycle)].
Definition bothPollersOnce : list (nat * Cycle) :=
  [(1, waitingCycle); (3, waitingCycle); (1, waitingCycle); (3, waitingCycle)].

(** Alice is in the meeting and the store knows nothing about her. *)
Definition aliceUnknown : Zoom := mkZoom {["Alice"]} ∅ false.

(** A meeting in which the participants controller is not available. *)
Definition noController : Sdk :=
  mkSdk None (Some (mkChat true true SDKERR_SUCCESS))
        (mkRec SDKERR_SUCCESS SDKERR_SUCCESS SDKERR_SUCCESS)
        false SDKERR_SUCCESS SDKERR_SUCCESS false false SDKERR_SUCCESS.

(** Alice and Zed listed in another order, Zed twice. *)
Definition zedAliceZed : list (N * string) := [(2%N, "Zed"); (1%N, "Alice"); (2%N, "Zed")].

(** A guest has joined the two people the hard-wired response names. *)
Definition withGuest : list (N * string) :=
  [(1%N, "IdentifAI KYE"); (2%N, "Harshit Soni"); (3%N, "Guest")].
Definition guestCycle : Cycle := mkCycle (meeting withGuest SDKERR_SUCCESS) dummyApiResponse.

(** One call of [startConsentCheck]; the poller (task 1) makes two passes
    with the reminder (task 0) firing in between, then tries a third. *)
Definition onePollerBusy : list (nat * Cycle) :=
  [(1, dummyCycle); (0, dummyCycle); (1, dummyCycle);
   (1, dummyCycle); (1, dummyCycle); (1, dummyCycle)].

(** Zed is listed before Bob. *)
Definition zedThenBob : list (N * string) := [(5%N, "Zed"); (3%N, "Bob")].

(** Zed, Alice and Bob, in that order. *)
Definition zedAliceBob : list (N * string) := [(5%N, "Zed"); (1%N, "Alice"); (3%N, "Bob")].

(** Alice's meeting recorded with raw video and raw audio, every call
    succeeding. *)
Definition rawMeeting : Sdk :=
  mkSdk (Some (mkPart (Some (aliceOnly.*1)) (nameOf aliceOnly)))
        (Some (mkChat true true SDKERR_SUCCESS))
        (mkRec SDKERR_SUCCESS SDKERR_SUCCESS SDKERR_SUCCESS)
        true SDKERR_SUCCESS SDKERR_SUCCESS true true SDKERR_SUCCESS.

(** * Properties *)

(** ** The order in which the roster is walked *)

Lemma elem_of_rosterOrder (roster : gset string) name :
  name ∈ rosterOrder roster ↔ name ∈ roster.
Proof.
  unfold rosterOrder. by rewrite merge_sort_Permutation, elem_of_elements.
Qed.

Lemma rosterOrder_empty : rosterOrder ∅ = [].
Proof. done. Qed.

Lemma rosterOrder_NoDup (roster : gset string) : NoDup (rosterOrder roster).
Proof.
  unfold rosterOrder. rewrite merge_sort_Permutation. apply NoDup_elements.
Qed.

Lemma rosterOrder_sorted (roster : gset string) :
  StronglySorted String.le (rosterOrder roster).
Proof. apply StronglySorted_merge_sort; apply _. Qed.

(** Closes a goal about a trace known to hold no recording start. *)
Ltac no_start :=
  change (starts []) with 0; split; [lia | intros Hone; discriminate Hone].

(** ** The store under [operator[]] *)

Section Store.
Implicit Types (c : gmap string bool) (user id : string) (users : list string).

Lemma subscript_value c user :
  (subscript c user).1 = true ↔ c !! user = Some true.
Proof.
  unfold subscript. destruct (c !! user) as [b|] eqn:E; simpl.
  - split; [intros ->; done | congruence].
  - split; discriminate.
Qed.

Lemma subscript_present c user :
  is_Some (c !! user) → (subscript c user).2 = c.
Proof. intros [b E]. unfold subscript. by rewrite E. Qed.

Lemma subscript_lookup c user id :
  (subscript c user).2 !! id =
    if decide (id = user ∧ c !! user = None) then Some false else c !! id.
Proof.
  unfold subscript. destruct (c !! user) as [b|] eqn:E; simpl.
  - case_decide as H; [destruct H; congruence | done].
  - case_decide as H.
    + destruct H as [-> _]. apply lookup_insert_eq.
    + rewrite lookup_insert_ne; [done|]. intros ->. apply H; done.
Qed.

Lemma subscript_dom c user : dom (subscript c user).2 = {[user]} ∪ dom c.
Proof.
  unfold subscript. destruct (c !! user) as [b|] eqn:E; simpl.
  - apply elem_of_dom_2 in E. apply set_eq. intros k.
    rewrite elem_of_union, elem_of_singleton.
    split; [by right | intros [->|?]; done].
  - apply dom_insert_L.
Qed.

(** After the first loop of [onConsentUpdate] a roster name holds exactly
    its membership in the poll result; every other key is untouched. *)
Lemma assignConsent_lookup users consenting c id :
  assignConsent users consenting c !! id =
    if decide (id ∈ users) then Some (bool_decide (id ∈ consenting)) else c !! id.
Proof.
  revert c. induction users as [|u rest IH]; intros c; simpl.
  - destruct (decide (id ∈ [])) as [H|H]; [inversion H | done].
  - rewrite IH. destruct (decide (id ∈ rest)) as [Hin|Hout].
    + rewrite decide_True; [done | by right].
    + destruct (decide (id = u)) as [->|Hne].
      * rewrite decide_True; [| by left]. apply lookup_insert_eq.
      * rewrite decide_False.
        { by rewrite lookup_insert_ne. }
        intros [?|?]%elem_of_cons; done.
Qed.

(** [std::all_of] stops at the first name whose entry is not [true]. *)
Lemma allOfRoster_true users c :
  (allOfRoster users c).1 = true ↔ ∀ id, id ∈ users → c !! id = Some true.
Proof.
  revert c. induction users as [|u rest IH]; intros c; simpl.
  - split; [intros _ id H; inversion H | done].
  - destruct (subscript c u) as [b c'] eqn:E.
    assert (Hb : b = true ↔ c !! u = Some true).
    { rewrite <- subscript_value. by rewrite E. }
    destruct b.
    + assert (Hu : c !! u = Some true) by by apply Hb.
      assert (c' = c) as ->.
      { pose proof (subscript_present c u) as Hp. rewrite E in Hp.
        apply Hp. by rewrite Hu. }
      rewrite IH. split.
      * intros H id [->|Hin]%elem_of_cons; auto.
      * intros H id Hin. apply H. by right.
    + simpl. split; [discriminate|].
      intros H. assert (c !! u = Some true) as Hu by (apply H; by left).
      apply Hb in Hu. discriminate.
Qed.

(** When every visited name has an entry, the check does not write. *)
Lemma allOfRoster_present users c :
  (∀ id, id ∈ users → is_Some (c !! id)) → (allOfRoster users c).2 = c.
Proof.
  revert c. induction users as [|u rest IH]; intros c Hall; simpl; [done|].
  assert (Hu : is_Some (c !! u)) by (apply Hall; by left).
  destruct Hu as [b Hu]. unfold subscript. rewrite Hu.
  destruct b; simpl; [|done].
  apply IH. intros id Hin. apply Hall. by right.
Qed.

Lemma buildReminder_present users c reminder :
  (∀ id, id ∈ users → is_Some (c !! id)) →
  (buildReminder users c reminder).1 = c.
Proof.
  revert c reminder. induction users as [|u rest IH]; intros c reminder Hall;
    simpl; [done|].
  assert (Hu : is_Some (c !! u)) by (apply Hall; by left).
  destruct Hu as [b Hu]. unfold subscript. rewrite Hu.
  apply IH. intros id Hin. apply Hall. by right.
Qed.

End Store.

(** ** Traces *)

Lemma starts_app (tr1 tr2 : list Event) : starts (tr1 ++ tr2) = starts tr1 + starts tr2.
Proof. unfold starts. by rewrite filter_app, length_app. Qed.

Lemma starts_sendMessage sdk message : starts (sendMessage sdk message) = 0.
Proof.
  unfold sendMessage.
  destruct (meetingChatController sdk) as [chat|]; [|done].
  by destruct (chatMessageBuilder chat), (chatBuild chat).
Qed.

Lemma starts_sendConsentRequest chatCtrl : starts (sendConsentRequest chatCtrl).1 = 0.
Proof.
  destruct chatCtrl as [chat|]; [|done]. simpl.
  by destruct (chatMessageBuilder chat), (chatBuild chat).
Qed.

(** Each call of [startRawRecording] is one invocation of the
    recording-start operation, whatever the SDK answers. *)
Lemma starts_startRawRecording sdk : starts (startRawRecording sdk).1 = 1.
Proof.
  unfold startRawRecording.
  destruct (hasError (canStartRawRecording _)).
  - pose proof (starts_sendConsentRequest (meetingChatController sdk)) as Hreq.
    destruct (sendConsentRequest _) as [tr err]. simpl in Hreq.
    destruct (hasError err); simpl.
    + change (EvStartRawRecording :: tr) with ([EvStartRawRecording] ++ tr).
      rewrite starts_app, Hreq. done.
    + change (EvStartRawRecording :: tr ++ [EvSdkRequestPrivilege])
        with ([EvStartRawRecording] ++ tr ++ [EvSdkRequestPrivilege]).
      rewrite !starts_app, Hreq. done.
  - by destruct (hasError (sdkStartRawRecording _)).
Qed.

(** ** The consent update in closed form *)

Lemma rosterInPoll_spec z users :
  rosterInPoll z users = true ↔ ∀ id, id ∈ participants z → id ∈ users.
Proof.
  unfold rosterInPoll. rewrite forallb_forall. split.
  - intros H id Hin. eapply bool_decide_eq_true_1.
    apply H, list_elem_of_In, elem_of_rosterOrder, Hin.
  - intros H id Hin. apply bool_decide_eq_true_2.
    apply H, elem_of_rosterOrder, list_elem_of_In, Hin.
Qed.

Section Update.
Variables (sdk : Sdk) (users : list string) (z : Zoom).

Let roster := rosterOrder (participants z).
Let assigned := assignConsent roster users (consentStatus z).

Lemma assigned_present id : id ∈ roster → is_Some (assigned !! id).
Proof.
  intros Hin. unfold assigned. rewrite assignConsent_lookup.
  rewrite decide_True; [eauto | done].
Qed.

Lemma assigned_gate : (allOfRoster roster assigned).1 = rosterInPoll z users.
Proof.
  apply eq_true_iff_eq. rewrite allOfRoster_true, rosterInPoll_spec. split.
  - intros H id Hin. apply elem_of_rosterOrder in Hin. specialize (H id Hin).
    unfold assigned in H. rewrite assignConsent_lookup in H.
    rewrite decide_True in H; [|done].
    injection H as H. by eapply bool_decide_eq_true_1.
  - intros H id Hin. unfold assigned. rewrite assignConsent_lookup.
    rewrite decide_True; [|done]. f_equal. apply bool_decide_eq_true_2.
    apply H. by apply elem_of_rosterOrder.
Qed.

(** [onConsentUpdate] without the intermediate writes that change nothing. *)
Lemma onConsentUpdate_eq :
  onConsentUpdate sdk users z =
    if rosterInPoll z users
    then (mkZoom (participants z) assigned true, (startRawRecording sdk).1)
    else (mkZoom (participants z) assigned (recordingStarted z),
          sendMessage sdk (buildReminder roster assigned reminderHeader).2).
Proof.
  unfold onConsentUpdate. fold roster. fold assigned.
  pose proof assigned_gate as Hgate.
  pose proof (allOfRoster_present roster assigned assigned_present) as Hsame.
  destruct (allOfRoster roster assigned) as [b c2]. simpl in Hgate, Hsame.
  subst c2. rewrite <- Hgate. destruct b; [done|].
  unfold sendConsentReminder, set_consentStatus. simpl. fold roster.
  pose proof (buildReminder_present roster assigned reminderHeader assigned_present)
    as Hrem.
  destruct (buildReminder roster assigned reminderHeader) as [c3 text].
  simpl in Hrem. by subst c3.
Qed.

Lemma onConsentUpdate_store :
  consentStatus (onConsentUpdate sdk users z).1 = assigned.
Proof. rewrite onConsentUpdate_eq. by destruct (rosterInPoll z users). Qed.

Lemma onConsentUpdate_participants :
  participants (onConsentUpdate sdk users z).1 = participants z.
Proof. rewrite onConsentUpdate_eq. by destruct (rosterInPoll z users). Qed.

Lemma onConsentUpdate_flag :
  recordingStarted (onConsentUpdate sdk users z).1 =
    rosterInPoll z users || recordingStarted z.
Proof. rewrite onConsentUpdate_eq. by destruct (rosterInPoll z users). Qed.

Lemma onConsentUpdate_starts :
  starts (onConsentUpdate sdk users z).2 = if rosterInPoll z users then 1 else 0.
Proof.
  rewrite onConsentUpdate_eq. destruct (rosterInPoll z users); simpl.
  - apply starts_startRawRecording.
  - apply starts_sendMessage.
Qed.

End Update.

(** ** What an update writes, and what its gate reads *)

Lemma onConsentUpdate_lookup sdk users z id :
  consentStatus (onConsentUpdate sdk users z).1 !! id =
    if decide (id ∈ participants z)
    then Some (bool_decide (id ∈ users))
    else consentStatus z !! id.
Proof.
  rewrite onConsentUpdate_store, assignConsent_lookup.
  destruct (decide (id ∈ participants z)) as [Hin|Hout].
  - rewrite decide_True; [done | by apply elem_of_rosterOrder].
  - rewrite decide_False; [done|]. by rewrite elem_of_rosterOrder.
Qed.

Lemma onConsentUpdate_gate sdk users z :
  rosterInPoll z users = true ↔
  ∀ id, id ∈ participants z →
        consentStatus (onConsentUpdate sdk users z).1 !! id = Some true.
Proof.
  rewrite rosterInPoll_spec. split; intros H id Hin.
  - rewrite onConsentUpdate_lookup, decide_True; [|done].
    f_equal. apply bool_decide_eq_true_2. by apply H.
  - specialize (H id Hin). rewrite onConsentUpdate_lookup, decide_True in H; [|done].
    injection H as H. by eapply bool_decide_eq_true_1.
Qed.

(** C2, as the code has it: the all-consented check of the gate is true iff
    every roster id maps to true in the store, with no condition on the
    roster being non-empty; on an empty roster it is true.  [onConsentUpdate]
    invokes the recording-start operation exactly when the check holds of the
    store it has just written. *)
Theorem allConsented_iff_roster_entries_true :
  (∀ (R : gset string) (S : gmap string bool),
     (allOfRoster (rosterOrder R) S).1 = true ↔ ∀ id, id ∈ R → S !! id = Some true) ∧
  (∀ S : gmap string bool, (allOfRoster (rosterOrder (∅ : gset string)) S).1 = true) ∧
  (∀ sdk users z,
     starts (onConsentUpdate sdk users z).2 = 1 ↔
     ∀ id, id ∈ participants z →
           consentStatus (onConsentUpdate sdk users z).1 !! id = Some true).
Proof.
  split; [|split].
  - intros R S. rewrite allOfRoster_true.
    split; intros H id Hin; apply H; by apply elem_of_rosterOrder.
  - intros S. by rewrite rosterOrder_empty.
  - intros sdk users z.
    rewrite <- onConsentUpdate_gate, onConsentUpdate_starts.
    destruct (rosterInPoll z users); [done|]. split; discriminate.
Qed.

(** C2, counterexample: with nobody in the roster the check is true and the
    update starts the recording. *)
Lemma empty_roster_starts_recording :
  (allOfRoster (rosterOrder (participants fresh)) (consentStatus fresh)).1 = true ∧
  recordingStarted (onConsentUpdate (meeting [] SDKERR_SUCCESS) [] fresh).1 = true ∧
  (onConsentUpdate (meeting [] SDKERR_SUCCESS) [] fresh).2 =
    [EvStartRawRecording; EvSdkStartRawRecording].
Proof. by vm_compute. Qed.

(** C3, as the code has it: an update overwrites the entry of every roster
    id with its membership in the poll result.  After the update a roster id
    maps to true iff the poll result lists it and to false iff it does not,
    whatever its entry was before, so a true entry of a roster id that the
    poll result does not list is cleared; entries of keys outside the roster
    are left as they are. *)
Theorem onConsentUpdate_overwrites_roster_entries sdk users z id :
  (id ∈ participants z →
   (consentStatus (onConsentUpdate sdk users z).1 !! id = Some true ↔ id ∈ users) ∧
   (consentStatus (onConsentUpdate sdk users z).1 !! id = Some false ↔ id ∉ users)) ∧
  (id ∉ participants z →
   consentStatus (onConsentUpdate sdk users z).1 !! id = consentStatus z !! id).
Proof.
  rewrite onConsentUpdate_lookup. split.
  - intros Hin. rewrite decide_True by done.
    destruct (decide (id ∈ users)) as [Hyes|Hno].
    + rewrite bool_decide_eq_true_2 by done. by repeat split.
    + rewrite bool_decide_eq_false_2 by done. by repeat split.
  - intros Hout. by rewrite decide_False.
Qed.

(** C3, counterexample: Alice is in the roster with a true entry; a poll
    result that does not list her clears it. *)
Lemma update_clears_granted_consent :
  "Alice" ∈ participants aliceConsented ∧
  consentStatus aliceConsented !! "Alice" = Some true ∧
  consentStatus (onConsentUpdate (meeting aliceOnly SDKERR_SUCCESS) [] aliceConsented).1
    !! "Alice" = Some false.
Proof.
  split; [|by vm_compute].
  unfold aliceConsented; cbn [participants]. by apply elem_of_singleton_2.
Qed.

(** ** The reminder *)

Lemma filter_agree {A} (P Q : A → Prop) `{!∀ x, Decision (P x), !∀ x, Decision (Q x)}
    (l : list A) :
  (∀ x, x ∈ l → P x ↔ Q x) → filter P l = filter Q l.
Proof.
  induction l as [|a l IH]; intros Hall; [done|].
  rewrite !filter_cons, IH by (intros x Hx; apply Hall; by right).
  destruct (decide (P a)) as [HP|HP], (decide (Q a)) as [HQ|HQ]; try done.
  - exfalso. apply HQ, Hall; [by left | done].
  - exfalso. apply HP, Hall; [by left | done].
Qed.

Lemma buildReminder_lookup users (c : gmap string bool) reminder id :
  (buildReminder users c reminder).1 !! id =
    if decide (id ∈ users ∧ c !! id = None) then Some false else c !! id.
Proof.
  revert c reminder.
  induction users as [|u rest IH]; intros c reminder; cbn [buildReminder].
  - rewrite decide_False; [done|]. intros [H _]. inversion H.
  - destruct (subscript c u) as [b c'] eqn:E.
    assert (Hc' : c' = (subscript c u).2) by by rewrite E.
    rewrite IH, Hc', subscript_lookup. clear IH E Hc'.
    destruct (decide (id = u ∧ c !! u = None)) as [[-> Hu]|Hnot].
    + rewrite decide_False by (intros [_ ?]; done).
      rewrite decide_True; [done|]. split; [by left | done].
    + destruct (decide (id ∈ rest ∧ c !! id = None)) as [[Hin Hnone]|Hnot'].
      * rewrite decide_True; [done|]. split; [by right | done].
      * rewrite decide_False; [done|]. intros [[->|Hin]%elem_of_cons Hnone].
        -- apply Hnot. done.
        -- apply Hnot'. done.
Qed.

Lemma buildReminder_text users (c : gmap string bool) reminder :
  (buildReminder users c reminder).2 =
    foldl (λ text user, text +:+ reminderLine user) reminder
          (filter (λ user, c !! user ≠ Some true) users).
Proof.
  revert c reminder.
  induction users as [|u rest IH]; intros c reminder; cbn [buildReminder]; [done|].
  destruct (subscript c u) as [b c'] eqn:E.
  assert (Hb : b = true ↔ c !! u = Some true).
  { rewrite <- subscript_value. by rewrite E. }
  assert (Hc' : c' = (subscript c u).2) by by rewrite E.
  rewrite IH.
  rewrite (list_filter_iff (λ user, c' !! user ≠ Some true)
                           (λ user, c !! user ≠ Some true)).
  - destruct b.
    + rewrite filter_cons_False; [done|]. intros H. apply H, Hb. done.
    + rewrite filter_cons_True; [done|]. intros H. apply Hb in H. discriminate.
  - intros x. rewrite Hc', subscript_lookup.
    destruct (decide (x = u ∧ c !! u = None)) as [[-> Hu]|Hnot]; [|done].
    rewrite Hu. split; discriminate.
Qed.

Lemma string_app_cons c (a b : string) : String c a +:+ b = String c (a +:+ b).
Proof. reflexivity. Qed.

Lemma string_app_nil_r (a : string) : a +:+ "" = a.
Proof. induction a as [|c a IH]; [done|]. by rewrite string_app_cons, IH. Qed.

Lemma string_app_assoc (a b c : string) : (a +:+ b) +:+ c = a +:+ (b +:+ c).
Proof. induction a as [|x a IH]; [done|]. by rewrite !string_app_cons, IH. Qed.

(** The text the loop of [sendConsentReminder] builds up, written out: what
    was there, then for each name a line feed, a dash, a blank and the
    name. *)
Lemma reminder_lines text names :
  foldl (λ text user, text +:+ reminderLine user) text names =
    text +:+ foldr (λ name rest, String "010" ("- " +:+ name) +:+ rest) "" names.
Proof.
  revert text. induction names as [|name names IH]; intros text.
  - simpl. by rewrite string_app_nil_r.
  - cbn [foldl foldr]. rewrite IH. unfold reminderLine. by rewrite string_app_assoc.
Qed.

(** C9: [sendConsentReminder] writes to the store.  Every roster id without
    an entry gets the entry false, every other entry is kept, so afterwards
    every roster id has an entry; roster and flag are untouched.  The text
    handed to [sendMessage] is the sentence "Please provide your consent for
    recording." followed, for each roster id whose entry is then false, by a
    line feed, "- " and the id; these ids come in the order in which the
    roster is walked, which lists every roster id once, in ascending order. *)
Theorem sendConsentReminder_inserts_false_entries sdk z :
  let z' := (sendConsentReminder sdk z).1 in
  (∀ id, consentStatus z' !! id =
         if decide (id ∈ participants z ∧ consentStatus z !! id = None)
         then Some false else consentStatus z !! id) ∧
  (∀ id, id ∈ participants z → is_Some (consentStatus z' !! id)) ∧
  participants z' = participants z ∧
  recordingStarted z' = recordingStarted z ∧
  (sendConsentReminder sdk z).2 =
    sendMessage sdk
      ("Please provide your consent for recording." +:+
       foldr (λ name rest, String "010" ("- " +:+ name) +:+ rest) ""
             (filter (λ user, consentStatus z' !! user = Some false)
                     (rosterOrder (participants z)))) ∧
  (∀ id, id ∈ rosterOrder (participants z) ↔ id ∈ participants z) ∧
  NoDup (rosterOrder (participants z)) ∧
  StronglySorted String.le (rosterOrder (participants z)).
Proof.
  unfold sendConsentReminder.
  pose proof (buildReminder_lookup (rosterOrder (participants z)) (consentStatus z)
                reminderHeader) as Hlookup.
  pose proof (buildReminder_text (rosterOrder (participants z)) (consentStatus z)
                reminderHeader) as Htext.
  destruct (buildReminder _ _ _) as [c text]. simpl in *.
  assert (Hstore : ∀ id, c !! id =
      if decide (id ∈ participants z ∧ consentStatus z !! id = None)
      then Some false else consentStatus z !! id).
  { intros id. rewrite Hlookup.
    destruct (decide (id ∈ participants z ∧ consentStatus z !! id = None))
      as [[Hin Hnone]|Hnot].
    - rewrite decide_True; [done|]. by rewrite elem_of_rosterOrder.
    - rewrite decide_False; [done|]. by rewrite elem_of_rosterOrder. }
  split; [done|]. split; [|split; [done|split; [done|split; [|split; [|split]]]]].
  - intros id Hin. rewrite Hstore.
    destruct (consentStatus z !! id) as [b|] eqn:E.
    + rewrite decide_False; [eauto|]. intros [_ ?]; done.
    + rewrite decide_True; [eauto | done].
  - f_equal. rewrite Htext, reminder_lines. unfold reminderHeader. do 2 f_equal.
    apply filter_agree. intros user Hin.
    apply elem_of_rosterOrder in Hin. rewrite Hstore.
    destruct (consentStatus z !! user) as [[]|] eqn:E.
    + rewrite decide_False by (intros [_ ?]; done). split; [done | discriminate].
    + rewrite decide_False by (intros [_ ?]; done). split; done.
    + rewrite decide_True by done. split; done.
  - intros id. apply elem_of_rosterOrder.
  - apply rosterOrder_NoDup.
  - apply rosterOrder_sorted.
Qed.

(** The reminder is not read-only: Alice, unknown to the store before, has
    the entry false afterwards and is named in the text. *)
Example reminder_writes_missing_entry :
  sendConsentReminder (meeting aliceOnly SDKERR_SUCCESS) aliceUnknown =
    (mkZoom {["Alice"]} {["Alice" := false]} false,
     [EvChat "Please provide your consent for recording.
- Alice"]).
Proof. by vm_compute. Qed.

(** Zed joined before Bob and neither has an entry: the reminder names Bob
    first. *)
Example reminder_names_in_ascending_order :
  sendConsentReminder (meeting zedThenBob SDKERR_SUCCESS)
    (fetchParticipants (meeting zedThenBob SDKERR_SUCCESS) fresh) =
    (mkZoom ({["Bob"]} ∪ {["Zed"]}) (<["Zed" := false]> {["Bob" := false]}) false,
     [EvChat "Please provide your consent for recording.
- Bob
- Zed"]).
Proof. by vm_compute. Qed.

(** ** Keys of the store *)

Lemma fetchParticipants_store sdk z :
  consentStatus (fetchParticipants sdk z) = consentStatus z.
Proof.
  unfold fetchParticipants.
  destruct (meetingParticipantsController sdk) as [pc|]; [|done].
  by destruct (participantsList pc).
Qed.

Lemma fetchParticipants_flag sdk z :
  recordingStarted (fetchParticipants sdk z) = recordingStarted z.
Proof.
  unfold fetchParticipants.
  destruct (meetingParticipantsController sdk) as [pc|]; [|done].
  by destruct (participantsList pc).
Qed.

(** The events and the flag of an update are the same from any store. *)
Lemma onConsentUpdate_any_store sdk users z c :
  (onConsentUpdate sdk users (set_consentStatus c z)).2 =
    (onConsentUpdate sdk users z).2 ∧
  recordingStarted (onConsentUpdate sdk users (set_consentStatus c z)).1 =
    recordingStarted (onConsentUpdate sdk users z).1.
Proof.
  rewrite !onConsentUpdate_eq.
  change (rosterInPoll (set_consentStatus c z) users) with (rosterInPoll z users).
  destruct (rosterInPoll z users); [done|]. split; [|done].
  cbn [snd set_consentStatus participants consentStatus].
  f_equal. rewrite !buildReminder_text. f_equal.
  apply filter_agree. intros user Hin.
  rewrite !assignConsent_lookup. by rewrite !decide_True.
Qed.

(** C4, as the code has it: nothing prunes the store.  A roster refresh
    leaves it as it is, and an update only adds the roster ids to its keys,
    so keys of departed participants stay.  The gate of [onConsentUpdate]
    does not read them: its events and the flag are the same whatever store
    the update starts from. *)
Theorem onConsentUpdate_keeps_stale_keys sdk users z :
  consentStatus (fetchParticipants sdk z) = consentStatus z ∧
  dom (consentStatus (onConsentUpdate sdk users z).1) =
    dom (consentStatus z) ∪ participants z ∧
  (∀ c, (onConsentUpdate sdk users (set_consentStatus c z)).2 =
          (onConsentUpdate sdk users z).2 ∧
        recordingStarted (onConsentUpdate sdk users (set_consentStatus c z)).1 =
          recordingStarted (onConsentUpdate sdk users z).1).
Proof.
  split; [apply fetchParticipants_store | split].
  - apply set_eq. intros id.
    rewrite elem_of_union, !elem_of_dom, onConsentUpdate_lookup.
    destruct (decide (id ∈ participants z)) as [Hin|Hout].
    + split; [by right | eauto].
    + split; [by left | by intros [?|?]].
  - intros c. apply onConsentUpdate_any_store.
Qed.

(** C4, counterexample: after the two poll cycles of [zedLeaves] the roster
    is Alice alone and she has consented, yet the store still has the key of
    Zed, who left; that stale false entry keeps [startRecordingIfAllConsented]
    from starting the recording, which it does once the entry is removed. *)
Lemma departed_entry_stays :
  let z := (checkConsentStatus zedLeaves fresh).1.1 in
  rosterOrder (participants z) = ["Alice"] ∧
  consentStatus z !! "Alice" = Some true ∧
  consentStatus z !! "Zed" = Some false ∧
  ¬ dom (consentStatus z) ⊆ participants z ∧
  (startRecordingIfAllConsented (meeting aliceOnly SDKERR_SUCCESS) z).2 = [] ∧
  (startRecordingIfAllConsented (meeting aliceOnly SDKERR_SUCCESS)
     (set_consentStatus (delete "Zed" (consentStatus z)) z)).2 =
    [EvStartRawRecording; EvSdkStartRawRecording].
Proof.
  repeat split; try by vm_compute.
  intros Hsub. specialize (Hsub "Zed"). revert Hsub. vm_compute.
  intros H. by specialize (H eq_refl).
Qed.

(** ** The poll loop *)

Lemma starts_cons_fetch tr : starts (EvFetchConsent :: tr) = starts tr.
Proof. done. Qed.

(** One pass invokes the recording-start operation at most once, and the
    flag afterwards is set iff it was set before or the pass invoked it. *)
Lemma pollCycle_flag cy z :
  starts (pollCycle cy z).1.2 ≤ 1 ∧
  recordingStarted (pollCycle cy z).1.1 =
    Nat.eqb (starts (pollCycle cy z).1.2) 1 || recordingStarted z ∧
  ((pollCycle cy z).2 = true → starts (pollCycle cy z).1.2 = 0).
Proof.
  unfold pollCycle. destruct (cycleResponse cy) as [|jsonData]; simpl.
  - rewrite fetchParticipants_flag. auto.
  - destruct (readConsentingUsers jsonData) as [users|]; simpl.
    + pose proof (onConsentUpdate_flag (cycleSdk cy) users
                    (fetchParticipants (cycleSdk cy) z)) as Hflag.
      pose proof (onConsentUpdate_starts (cycleSdk cy) users
                    (fetchParticipants (cycleSdk cy) z)) as Hstarts.
      destruct (onConsentUpdate _ _ _) as [z2 tr]. simpl in *.
      rewrite starts_cons_fetch, Hstarts, Hflag, fetchParticipants_flag.
      destruct (rosterInPoll _ _); simpl; repeat split; try done; lia.
    + rewrite fetchParticipants_flag. auto.
Qed.

Lemma checkConsentStatus_started cycles z :
  recordingStarted z = true → checkConsentStatus cycles z = (z, [], Exited).
Proof. intros H. destruct cycles; simpl; by rewrite H. Qed.

Lemma checkConsentStatus_starts cycles z :
  starts (checkConsentStatus cycles z).1.2 ≤ 1 ∧
  (starts (checkConsentStatus cycles z).1.2 = 1 →
   recordingStarted (checkConsentStatus cycles z).1.1 = true ∧
   (checkConsentStatus cycles z).2 = Exited).
Proof.
  revert z. induction cycles as [|cy rest IH]; intros z.
  - simpl. destruct (recordingStarted z); simpl; no_start.
  - simpl. destruct (recordingStarted z) eqn:Hz; simpl.
    { no_start. }
    destruct (pollCycle_flag cy z) as (Hle & Hflag & Hraised).
    destruct (pollCycle cy z) as [[z1 tr1] raised]. simpl in *.
    destruct raised; simpl.
    { rewrite Hraised by done. no_start. }
    rewrite Hz, orb_false_r in Hflag.
    destruct (Nat.eqb_spec (starts tr1) 1) as [Hone|Hnone].
    + rewrite checkConsentStatus_started by done. simpl.
      rewrite app_nil_r. split; [lia | done].
    + specialize (IH z1). destruct (checkConsentStatus rest z1) as [[z2 tr2] st].
      simpl in *. rewrite starts_app.
      assert (starts tr1 = 0) as -> by lia. simpl. done.
Qed.

(** The loop is left through its guard exactly when the flag is set. *)
Lemma checkConsentStatus_exit cycles z :
  (checkConsentStatus cycles z).2 = Exited ↔
  recordingStarted (checkConsentStatus cycles z).1.1 = true.
Proof.
  revert z. induction cycles as [|cy rest IH]; intros z.
  - simpl. destruct (recordingStarted z) eqn:Hz; simpl; [done|].
    rewrite Hz. split; discriminate.
  - simpl. destruct (recordingStarted z) eqn:Hz; simpl; [done|].
    destruct (pollCycle_flag cy z) as (Hle & Hflag & Hraised).
    destruct (pollCycle cy z) as [[z1 tr1] raised]. simpl in *.
    destruct raised; simpl.
    + rewrite Hflag, Hraised, Hz by done. simpl. split; discriminate.
    + specialize (IH z1). by destruct (checkConsentStatus rest z1) as [[z2 tr2] st].
Qed.

(** ** One poller thread is the poll loop *)

Lemma solo_cons cy rest : solo (cy :: rest) = (0, cy) :: (0, cy) :: solo rest.
Proof. done. Qed.

Lemma step_solo cy pc z tr :
  step 0 cy (mkSystem z [Poller pc] tr) =
    mkSystem (stepTask cy (Poller pc) z).1.2 [(stepTask cy (Poller pc) z).1.1]
             (tr ++ (stepTask cy (Poller pc) z).2).
Proof.
  unfold step. cbn -[stepTask].
  by destruct (stepTask cy (Poller pc) z) as [[t' z'] tr'].
Qed.

Lemma run_solo_gone pc cycles z tr :
  pc = Finished ∨ pc = Raised →
  run (solo cycles) (mkSystem z [Poller pc] tr) = mkSystem z [Poller pc] tr.
Proof.
  intros Hpc. induction cycles as [|cy rest IH]; [done|].
  rewrite solo_cons. cbn [run].
  destruct Hpc as [-> | ->]; rewrite step_solo; cbn [stepTask fst snd];
    rewrite app_nil_r, step_solo; cbn [stepTask fst snd];
    rewrite app_nil_r; apply IH.
Qed.

(** A poller that is the only thread does what [checkConsentStatus] does. *)
Lemma solo_poller_is_checkConsentStatus cycles z tr :
  zoom (run (solo cycles) (mkSystem z [Poller AtGuard] tr)) =
    (checkConsentStatus cycles z).1.1 ∧
  trace (run (solo cycles) (mkSystem z [Poller AtGuard] tr)) =
    tr ++ (checkConsentStatus cycles z).1.2.
Proof.
  revert z tr. induction cycles as [|cy rest IH]; intros z tr.
  - simpl. destruct (recordingStarted z); simpl; by rewrite app_nil_r.
  - rewrite solo_cons. cbn [run checkConsentStatus].
    rewrite step_solo. cbn [stepTask].
    destruct (recordingStarted z) eqn:Hz; cbn [fst snd]; rewrite ?app_nil_r, step_solo;
      cbn [stepTask fst snd].
    + rewrite ?app_nil_r, run_solo_gone by auto. done.
    + destruct (pollCycle cy z) as [[z1 tr1] raised]. cbn [fst snd].
      destruct raised.
      * rewrite run_solo_gone by auto. done.
      * destruct (IH z1 (tr ++ tr1)) as [Hzoom Htrace].
        destruct (checkConsentStatus rest z1) as [[z2 tr2] st]. simpl in *.
        by rewrite Hzoom, Htrace, app_assoc.
Qed.

(** ** The flag is never reset *)

Lemma sendConsentReminder_flag sdk z :
  recordingStarted (sendConsentReminder sdk z).1 = recordingStarted z.
Proof. unfold sendConsentReminder. by destruct (buildReminder _ _ _). Qed.

Lemma stepTask_flag cy t z :
  recordingStarted z = true → recordingStarted (stepTask cy t z).1.2 = true.
Proof.
  intros Hz. destruct t as [[]|[]]; simpl; rewrite ?Hz; try done.
  destruct (pollCycle_flag cy z) as (_ & Hflag & _).
  destruct (pollCycle cy z) as [[z' tr] raised]. simpl in *.
  rewrite Hflag, Hz. apply orb_true_r.
Qed.

Lemma step_flag i cy sys :
  recordingStarted (zoom sys) = true → recordingStarted (zoom (step i cy sys)) = true.
Proof.
  intros Hz. unfold step. destruct (tasks sys !! i) as [t|]; [|done].
  pose proof (stepTask_flag cy t (zoom sys) Hz) as Hstep.
  by destruct (stepTask cy t (zoom sys)) as [[t' z'] tr].
Qed.

Lemma run_flag schedule sys :
  recordingStarted (zoom sys) = true → recordingStarted (zoom (run schedule sys)) = true.
Proof.
  revert sys. induction schedule as [|[i cy] rest IH]; intros sys Hz; [done|].
  simpl. by apply IH, step_flag.
Qed.

(** C1, as the code has it: within one run of the poll loop the
    recording-start operation is invoked at most once; the pass that invokes
    it sets the flag and is the loop's last; a loop entered with the flag set
    does nothing; and no thread step, update, reminder or roster refresh
    resets the flag.  The guard is the loop's: [onConsentUpdate] does not test
    the flag. *)
Theorem recording_started_once_per_poll_loop cycles z :
  starts (checkConsentStatus cycles z).1.2 ≤ 1 ∧
  (starts (checkConsentStatus cycles z).1.2 = 1 →
   recordingStarted (checkConsentStatus cycles z).1.1 = true ∧
   (checkConsentStatus cycles z).2 = Exited) ∧
  ((checkConsentStatus cycles z).2 = Exited →
   ∀ more, checkConsentStatus more (checkConsentStatus cycles z).1.1 =
           ((checkConsentStatus cycles z).1.1, [], Exited)) ∧
  (recordingStarted z = true →
   checkConsentStatus cycles z = (z, [], Exited) ∧
   (∀ schedule tasks tr,
      recordingStarted (zoom (run schedule (mkSystem z tasks tr))) = true) ∧
   (∀ sdk users, recordingStarted (onConsentUpdate sdk users z).1 = true) ∧
   (∀ sdk, recordingStarted (sendConsentReminder sdk z).1 = true) ∧
   (∀ sdk, recordingStarted (startRecordingIfAllConsented sdk z).1 = true) ∧
   (∀ sdk, recordingStarted (fetchParticipants sdk z) = true)).
Proof.
  destruct (checkConsentStatus_starts cycles z) as [Hle Hone].
  split; [done | split; [done | split]].
  - intros Hexit more. apply checkConsentStatus_started.
    by apply checkConsentStatus_exit.
  - intros Hz. split; [by apply checkConsentStatus_started|].
    split; [intros; by apply run_flag|].
    split; [intros; rewrite onConsentUpdate_flag, Hz; apply orb_true_r|].
    split; [intros; by rewrite sendConsentReminder_flag|].
    split; [|intros; by rewrite fetchParticipants_flag].
    intros sdk. unfold startRecordingIfAllConsented.
    by destruct (allEntries _).
Qed.

(** C1, counterexample: the first poll cycle sets the flag and starts the
    recording; an update delivered afterwards starts it again.  After two
    calls of [startConsentCheck] the program itself delivers such an update:
    both pollers pass the guard before either runs its body. *)
Lemma update_after_start_starts_again :
  let z1 := (checkConsentStatus [dummyCycle] fresh).1.1 in
  recordingStarted z1 = true ∧
  starts (checkConsentStatus [dummyCycle] fresh).1.2 = 1 ∧
  starts (onConsentUpdate (cycleSdk dummyCycle)
            ["IdentifAI KYE"; "Harshit Soni"] z1).2 = 1 ∧
  trace (run twoPollers (startConsentCheck (startConsentCheck boot))) =
    [EvFetchConsent; EvStartRawRecording; EvSdkStartRawRecording;
     EvFetchConsent; EvStartRawRecording; EvSdkStartRawRecording].
Proof. by vm_compute. Qed.

(** ** A recording start that fails *)

(** C5, as the code has it: the flag is set before [startRawRecording] is
    called and the call's result is dropped.  When every roster id is in the
    poll result and the recording start fails, the flag is true afterwards,
    the operation has been invoked once, and the poll loop, from that state,
    exits at once whatever cycles would follow: there is no retry. *)
Theorem failed_start_leaves_flag_set sdk users z :
  rosterInPoll z users = true →
  hasError (startRawRecording sdk).2 = true →
  recordingStarted (onConsentUpdate sdk users z).1 = true ∧
  starts (onConsentUpdate sdk users z).2 = 1 ∧
  ∀ cycles, checkConsentStatus cycles (onConsentUpdate sdk users z).1 =
            ((onConsentUpdate sdk users z).1, [], Exited).
Proof.
  intros Hall _.
  assert (Hflag : recordingStarted (onConsentUpdate sdk users z).1 = true).
  { by rewrite onConsentUpdate_flag, Hall. }
  split; [done | split].
  - by rewrite onConsentUpdate_starts, Hall.
  - intros cycles. by apply checkConsentStatus_started.
Qed.

Lemma failed_start_leaves_flag_set_witness :
  rosterInPoll (fetchParticipants startFails fresh) ["Alice"] = true ∧
  (startRawRecording startFails).2 = SDKERR_INTERNAL_ERROR ∧
  recordingStarted (onConsentUpdate startFails ["Alice"]
                      (fetchParticipants startFails fresh)).1 = true.
Proof.
  split; [by vm_compute | split; [reflexivity|]].
  apply (failed_start_leaves_flag_set startFails ["Alice"]
           (fetchParticipants startFails fresh)); by vm_compute.
Defined.

(** C5, counterexample: the SDK refuses the recording start in the cycle in
    which Alice, the only participant, consents.  The flag is true after that
    cycle, and the loop exits without using the next cycle, in which the
    start would have succeeded. *)
Lemma failed_start_is_not_retried :
  let z := fetchParticipants startFails fresh in
  recordingStarted z = false ∧
  (startRawRecording startFails).2 = SDKERR_INTERNAL_ERROR ∧
  recordingStarted (onConsentUpdate startFails ["Alice"] z).1 = true ∧
  (checkConsentStatus
     [mkCycle startFails (response ["Alice"]);
      mkCycle (meeting aliceOnly SDKERR_SUCCESS) (response ["Alice"])] fresh).1.2 =
    [EvFetchConsent; EvStartRawRecording; EvSdkStartRawRecording] ∧
  (checkConsentStatus
     [mkCycle startFails (response ["Alice"]);
      mkCycle (meeting aliceOnly SDKERR_SUCCESS) (response ["Alice"])] fresh).2 = Exited.
Proof. by vm_compute. Qed.

(** ** Fetches that fail *)







(** ** Starting the consent check *)

Lemma pollers_startConsentCheck sys : pollers (startConsentCheck sys) = S (pollers sys).
Proof.
  unfold pollers, startConsentCheck. simpl.
  rewrite filter_app, length_app. simpl. lia.
Qed.

Lemma reminders_startConsentCheck sys :
  reminders (startConsentCheck sys) = S (reminders sys).
Proof.
  unfold reminders, startConsentCheck. simpl.
  rewrite filter_app, length_app. simpl. lia.
Qed.

(** C6, as the code has it: [startConsentCheck] has no notion of being
    started already.  Every call creates one more reminder thread and one
    more poller thread and leaves the object's state alone, so after [n]
    calls there are [n] more of each. *)
Theorem startConsentCheck_spawns_on_every_call sys n :
  zoom (startConsentCheck sys) = zoom sys ∧
  trace (startConsentCheck sys) = trace sys ∧
  pollers (startConsentCheck sys) = S (pollers sys) ∧
  reminders (startConsentCheck sys) = S (reminders sys) ∧
  pollers (Nat.iter n startConsentCheck sys) = n + pollers sys ∧
  reminders (Nat.iter n startConsentCheck sys) = n + reminders sys.
Proof.
  split; [done | split; [done|]].
  split; [apply pollers_startConsentCheck|].
  split; [apply reminders_startConsentCheck|].
  induction n as [|n [IHp IHr]]; [done|]. simpl.
  by rewrite pollers_startConsentCheck, reminders_startConsentCheck, IHp, IHr.
Qed.

(** C6, counterexample: a second call is not a no-op.  It leaves two
    pollers and two reminder threads; when the reminder threads fire, two
    reminders are sent, and when the pollers make one pass each, the interval
    sees two fetches. *)
Lemma second_start_spawns_second_poller :
  startConsentCheck (startConsentCheck boot) ≠ startConsentCheck boot ∧
  pollers (startConsentCheck boot) = 1 ∧
  pollers (startConsentCheck (startConsentCheck boot)) = 2 ∧
  reminders (startConsentCheck (startConsentCheck boot)) = 2 ∧
  chats (trace (run bothReminders (startConsentCheck (startConsentCheck boot)))) = 2 ∧
  fetches (trace (run bothPollersOnce (startConsentCheck (startConsentCheck boot)))) = 2.
Proof.
  split; [|by vm_compute].
  intros Heq. apply (f_equal pollers) in Heq. revert Heq. by vm_compute.
Qed.

(** ** The second gate *)

Lemma allEntries_spec (c : gmap string bool) :
  allEntries c = true ↔ ∀ id b, c !! id = Some b → b = true.
Proof.
  unfold allEntries. rewrite forallb_forall. split.
  - intros H id b Hlook.
    apply (H (id, b)), list_elem_of_In, elem_of_map_to_list, Hlook.
  - intros H [id b] Hin. simpl.
    apply (H id), elem_of_map_to_list, list_elem_of_In, Hin.
Qed.

(** C8: [startRecordingIfAllConsented] invokes the recording-start
    operation iff every entry of the store is true, which includes the store
    without entries; it leaves the object's state as it is, and what it does
    is the same whether the flag is set or not. *)
Theorem startRecordingIfAllConsented_reads_store_only sdk z :
  (startRecordingIfAllConsented sdk z).1 = z ∧
  (starts (startRecordingIfAllConsented sdk z).2 = 1 ↔
   ∀ id b, consentStatus z !! id = Some b → b = true) ∧
  (starts (startRecordingIfAllConsented sdk z).2 = 0 ↔
   ∃ id, consentStatus z !! id = Some false) ∧
  (∀ roster flag,
     (startRecordingIfAllConsented sdk (mkZoom roster ∅ flag)).2 =
       (startRawRecording sdk).1) ∧
  (∀ flag,
     startRecordingIfAllConsented sdk (set_recordingStarted flag z) =
       (set_recordingStarted flag z, (startRecordingIfAllConsented sdk z).2)).
Proof.
  assert (Hsome : allEntries (consentStatus z) = false ↔
                  ∃ id, consentStatus z !! id = Some false).
  { split.
    - intros Hfalse. unfold allEntries in Hfalse.
      assert (Hin : ∃ entry, entry ∈ map_to_list (consentStatus z) ∧ entry.2 = false).
      { induction (map_to_list (consentStatus z)) as [|[id b] l IH]; [done|].
        simpl in Hfalse. destruct b.
        - destruct (IH Hfalse) as (entry & Hentry & Hsnd).
          exists entry. split; [by right | done].
        - exists (id, false). split; [by left | done]. }
      destruct Hin as ([id b] & Hentry & Hsnd). simpl in Hsnd. subst b.
      exists id. by apply elem_of_map_to_list.
    - intros [id Hid]. destruct (allEntries (consentStatus z)) eqn:E; [|done].
      rewrite allEntries_spec in E. by specialize (E id false Hid). }
  unfold startRecordingIfAllConsented.
  split; [by destruct (allEntries _) | split; [|split; [|split]]].
  - rewrite <- allEntries_spec.
    destruct (allEntries (consentStatus z)); simpl.
    + by rewrite starts_startRawRecording.
    + split; discriminate.
  - rewrite <- Hsome.
    destruct (allEntries (consentStatus z)); simpl.
    + rewrite starts_startRawRecording. split; discriminate.
    + done.
  - done.
  - intros flag. simpl. by destruct (allEntries (consentStatus z)).
Qed.

(** ** The roster is a set of display names *)

Lemma collectNames_elem user ids acc name :
  name ∈ collectNames user ids acc ↔
  name ∈ acc ∨ ∃ userId, userId ∈ ids ∧ userId ≠ 0%N ∧ user userId = Some name.
Proof.
  revert acc. induction ids as [|i rest IH]; intros acc; cbn [collectNames].
  - split; [by left | intros [?|(? & H & _)]; [done | inversion H]].
  - destruct (N.eqb_spec i 0) as [->|Hi].
    + rewrite IH. split; intros [?|(u & Hu & Hne & Hname)]; auto.
      * right. exists u. split; [by right | done].
      * apply elem_of_cons in Hu as [->|Hu]; [done|]. right. eauto.
    + destruct (user i) as [userName|] eqn:Ei; rewrite IH.
      * rewrite elem_of_union, elem_of_singleton. split.
        -- intros [[->|?]|(u & Hu & Hne & Hname)]; auto.
           ++ right. exists i. split; [by left | done].
           ++ right. exists u. split; [by right | done].
        -- intros [?|(u & Hu & Hne & Hname)]; auto.
           apply elem_of_cons in Hu as [->|Hu]; [|right; eauto].
           left. left. congruence.
      * split; intros [?|(u & Hu & Hne & Hname)]; auto.
        -- right. exists u. split; [by right | done].
        -- apply elem_of_cons in Hu as [->|Hu]; [congruence|]. right. eauto.
Qed.

(** C10: the roster is keyed by display name.  A refresh that reaches the
    participants list replaces the roster, whatever it was, by the set of the
    user names of the listed ids (id 0 and ids without user info aside).  An
    id whose name is also carried by another listed id adds nothing: the
    roster is the one obtained without it.  An update then opens its gate iff
    the name of every listed id occurs in the poll result, so one occurrence
    of a shared name answers for every id that carries it. *)
Theorem fetchParticipants_roster_of_names sdk pc ids z :
  meetingParticipantsController sdk = Some pc →
  participantsList pc = Some ids →
  (∀ name, name ∈ participants (fetchParticipants sdk z) ↔
           ∃ userId, userId ∈ ids ∧ userId ≠ 0%N ∧ userByUserID pc userId = Some name) ∧
  (∀ z0, participants (fetchParticipants sdk z0) = participants (fetchParticipants sdk z)) ∧
  (∀ a b name,
     a ∈ ids → a ≠ 0%N → a ≠ b →
     userByUserID pc a = Some name → userByUserID pc b = Some name →
     participants (fetchParticipants sdk z) =
       collectNames (userByUserID pc) (filter (λ userId, userId ≠ b) ids) ∅) ∧
  (∀ sdk' users,
     starts (onConsentUpdate sdk' users (fetchParticipants sdk z)).2 = 1 ↔
     ∀ userId name,
       userId ∈ ids → userId ≠ 0%N → userByUserID pc userId = Some name →
       name ∈ users).
Proof.
  intros Hpc Hids.
  assert (Hroster : ∀ z0, participants (fetchParticipants sdk z0) =
                          collectNames (userByUserID pc) ids ∅).
  { intros z0. unfold fetchParticipants. by rewrite Hpc, Hids. }
  assert (Hmem : ∀ name, name ∈ participants (fetchParticipants sdk z) ↔
    ∃ userId, userId ∈ ids ∧ userId ≠ 0%N ∧ userByUserID pc userId = Some name).
  { intros name. rewrite Hroster, collectNames_elem.
    split; [intros [H|H]; [inversion H | done] | by right]. }
  split; [done | split; [|split]].
  - intros z0. by rewrite !Hroster.
  - intros a b name Ha Ha0 Hab Hna Hnb. rewrite Hroster.
    apply set_eq. intros n. rewrite !collectNames_elem. split.
    + intros [H|(u & Hu & Hu0 & Hname)]; [by left|]. right.
      destruct (decide (u = b)) as [->|Hub].
      * exists a. split; [|split; [done | congruence]].
        apply list_elem_of_filter. done.
      * exists u. split; [|done]. apply list_elem_of_filter. done.
    + intros [H|(u & Hu & Hu0 & Hname)]; [by left|]. right.
      apply list_elem_of_filter in Hu as [_ Hu]. eauto.
  - intros sdk' users. rewrite onConsentUpdate_starts.
    assert (Hone : ∀ b : bool, (if b then 1 else 0) = 1 ↔ b = true).
    { intros []; split; (done || discriminate). }
    rewrite Hone, rosterInPoll_spec. split.
    + intros H userId name Hin Hne Hname. apply H, Hmem. eauto.
    + intros H name (userId & Hin & Hne & Hname)%Hmem. eauto.
Qed.

Lemma fetchParticipants_roster_of_names_witness :
  rosterOrder (participants (fetchParticipants (meeting twoAlices SDKERR_SUCCESS) fresh))
    = ["Alice"] ∧
  starts (onConsentUpdate (meeting twoAlices SDKERR_SUCCESS) ["Alice"]
            (fetchParticipants (meeting twoAlices SDKERR_SUCCESS) fresh)).2 = 1.
Proof.
  split; [by vm_compute|].
  destruct (fetchParticipants_roster_of_names
              (meeting twoAlices SDKERR_SUCCESS)
              (mkPart (Some (twoAlices.*1)) (nameOf twoAlices))
              (twoAlices.*1) fresh eq_refl eq_refl) as (_ & _ & _ & Hgate).
  apply Hgate. intros userId name Hin Hne Hname.
  assert (name = "Alice") as ->; [|by left].
  unfold twoAlices in Hin, Hname. simpl in Hin, Hname.
  apply elem_of_cons in Hin as [->|Hin]; [simpl in Hname; congruence|].
  apply elem_of_cons in Hin as [->|Hin]; [simpl in Hname; congruence|].
  inversion Hin.
Defined.

(** * Further properties of the consent code *)

(** ** The consent request and the recording start *)

(** X1: [sendConsentRequest] answers success exactly when a chat controller,
    a message builder and a built message were there and [SendChatMsgTo]
    succeeded.  The message handed to the SDK is always the fixed consent
    text; when nothing is handed over the answer is [SDKERR_UNINITIALIZE]. *)
Theorem sendConsentRequest_outcome chatCtrl :
  ((sendConsentRequest chatCtrl).2 = SDKERR_SUCCESS ↔
   ∃ chat, chatCtrl = Some chat ∧ chatMessageBuilder chat = true ∧
           chatBuild chat = true ∧ chatSend chat = SDKERR_SUCCESS) ∧
  ((sendConsentRequest chatCtrl).1 = [EvChat consentMessage] ↔
   ∃ chat, chatCtrl = Some chat ∧ chatMessageBuilder chat = true ∧
           chatBuild chat = true) ∧
  ((sendConsentRequest chatCtrl).1 ≠ [EvChat consentMessage] →
   (sendConsentRequest chatCtrl).1 = [] ∧
   (sendConsentRequest chatCtrl).2 = SDKERR_UNINITIALIZE).
Proof.
  destruct chatCtrl as [[builder build send]|]; simpl.
  - destruct builder, build; simpl; (split; [|split]).
    all: try (split; [discriminate | intros (c & [= <-] & H1 & H2 & _); discriminate]).
    all: try (split; [discriminate | intros (c & [= <-] & H1 & H2); discriminate]).
    all: try (intros _; done).
    + split.
      * intros H. eexists. repeat split. by destruct send.
      * intros (c & [= <-] & _ & _ & H). simpl in H. by rewrite H.
    + split; [intros _; eexists; done | done].
    + intros H. by destruct H.
  - split; [|split].
    + split; [discriminate | intros (c & H & _); discriminate].
    + split; [discriminate | intros (c & H & _); discriminate].
    + done.
Qed.

Lemma hasError_false e : hasError e = false ↔ e = SDKERR_SUCCESS.
Proof. destruct e; simpl; split; (done || discriminate). Qed.

(** The subscriptions after a successful [StartRawRecording] succeed iff
    each requested one does. *)
Lemma subscribeRaw_success sdk :
  subscribeRaw sdk = SDKERR_SUCCESS ↔
  (useRawVideo sdk = true →
   createRenderer sdk = SDKERR_SUCCESS ∧ videoSubscribe sdk = SDKERR_SUCCESS) ∧
  (useRawAudio sdk = true →
   audioRawdataHelper sdk = true ∧ audioSubscribe sdk = SDKERR_SUCCESS).
Proof.
  unfold subscribeRaw.
  destruct (useRawVideo sdk), (useRawAudio sdk), (audioRawdataHelper sdk);
    destruct (createRenderer sdk) eqn:E1; simpl;
    destruct (videoSubscribe sdk) eqn:E2; simpl;
    destruct (audioSubscribe sdk) eqn:E3; simpl;
    split; try discriminate; try done;
    try (intros [H1 H2]; first
           [ by destruct (H1 eq_refl) | by destruct (H2 eq_refl) ]).
Qed.

(** X2: which SDK calls [startRawRecording] makes.  [StartRawRecording] is
    called iff [CanStartRawRecording] succeeded, and then nothing is sent to
    the chat.  Otherwise the consent request is attempted, and the local
    recording privilege is requested iff that request succeeded. *)
Theorem startRawRecording_calls sdk :
  (EvSdkStartRawRecording ∈ (startRawRecording sdk).1 ↔
   canStartRawRecording (meetingRecordingController sdk) = SDKERR_SUCCESS) ∧
  (canStartRawRecording (meetingRecordingController sdk) = SDKERR_SUCCESS →
   (startRawRecording sdk).1 = [EvStartRawRecording; EvSdkStartRawRecording]) ∧
  (canStartRawRecording (meetingRecordingController sdk) ≠ SDKERR_SUCCESS →
   (startRawRecording sdk).1 =
     EvStartRawRecording :: (sendConsentRequest (meetingChatController sdk)).1 ++
       (if hasError (sendConsentRequest (meetingChatController sdk)).2
        then [] else [EvSdkRequestPrivilege])).
Proof.
  unfold startRawRecording.
  destruct (hasError (canStartRawRecording _)) eqn:Hcan.
  - assert (Hne : canStartRawRecording (meetingRecordingController sdk) ≠ SDKERR_SUCCESS).
    { intros H. rewrite H in Hcan. discriminate. }
    assert (Hreq : EvSdkStartRawRecording ∉ (sendConsentRequest (meetingChatController sdk)).1).
    { destruct (meetingChatController sdk) as [[[] [] ?]|]; simpl;
        intros H; repeat (apply elem_of_cons in H as [H|H]; [discriminate|]);
        inversion H. }
    destruct (sendConsentRequest _) as [tr err]. simpl in *.
    destruct (hasError err); simpl.
    + split; [|split; [done|by rewrite app_nil_r]].
      split; [|done]. intros [H|H]%elem_of_cons; [discriminate | done].
    + split; [|split; [done|done]].
      split; [|done]. intros [H|H]%elem_of_cons; [discriminate|].
      apply elem_of_app in H as [H|H]; [done|].
      apply list_elem_of_singleton in H. discriminate.
  - apply hasError_false in Hcan.
    assert (Hin : EvSdkStartRawRecording ∈ [EvStartRawRecording; EvSdkStartRawRecording]).
    { right. left. }
    destruct (hasError (sdkStartRawRecording _)); simpl; repeat split; done.
Qed.

(** X3: what a success answer of [startRawRecording] means, in a run in
    which the participants list read for raw video is there.  Success is
    returned in two cases.  Either recording was permitted,
    [StartRawRecording] succeeded, and with raw video configured the renderer
    was created and the video subscription succeeded, and with raw audio
    configured the audio helper was there and the audio subscription
    succeeded.  Or recording was not permitted, the consent request went out
    and the privilege request was accepted; in this case the answer is
    success although no recording runs. *)
Theorem startRawRecording_success sdk :
  rawVideoSafe sdk = true →
  ((startRawRecording sdk).2 = SDKERR_SUCCESS ↔
   (canStartRawRecording (meetingRecordingController sdk) = SDKERR_SUCCESS ∧
    sdkStartRawRecording (meetingRecordingController sdk) = SDKERR_SUCCESS ∧
    (useRawVideo sdk = true →
     createRenderer sdk = SDKERR_SUCCESS ∧ videoSubscribe sdk = SDKERR_SUCCESS) ∧
    (useRawAudio sdk = true →
     audioRawdataHelper sdk = true ∧ audioSubscribe sdk = SDKERR_SUCCESS)) ∨
   (canStartRawRecording (meetingRecordingController sdk) ≠ SDKERR_SUCCESS ∧
    (sendConsentRequest (meetingChatController sdk)).2 = SDKERR_SUCCESS ∧
    requestLocalRecordingPrivilege (meetingRecordingController sdk) = SDKERR_SUCCESS)).
Proof.
  intros _. rewrite <- subscribeRaw_success. unfold startRawRecording.
  destruct (hasError (canStartRawRecording _)) eqn:Hcan.
  - assert (Hne : canStartRawRecording (meetingRecordingController sdk) ≠ SDKERR_SUCCESS).
    { intros H. rewrite H in Hcan. discriminate. }
    destruct (sendConsentRequest _) as [tr err]. simpl.
    destruct (hasError err) eqn:Herr; simpl.
    + split.
      * intros ->. discriminate.
      * intros [[H _]|(_ & -> & _)]; [done | discriminate].
    + apply hasError_false in Herr as ->. split.
      * intros H. right. done.
      * intros [[H _]|(_ & _ & H)]; done.
  - apply hasError_false in Hcan.
    destruct (hasError (sdkStartRawRecording _)) eqn:Hstart; simpl.
    + split.
      * intros H. rewrite H in Hstart. discriminate.
      * intros [(_ & H & _)|[H _]]; [|done]. rewrite H in Hstart. discriminate.
    + apply hasError_false in Hstart. split.
      * intros H. left. done.
      * intros [(_ & _ & H)|[H _]]; done.
Qed.

Lemma startRawRecording_success_witness :
  (startRawRecording rawMeeting).2 = SDKERR_SUCCESS.
Proof.
  apply (startRawRecording_success rawMeeting eq_refl). left.
  repeat split; reflexivity.
Defined.

(** ** The roster refresh *)

Lemma collectNames_size user ids acc :
  size (collectNames user ids acc) ≤ length ids + size acc.
Proof.
  revert acc. induction ids as [|i rest IH]; intros acc; cbn [collectNames length].
  - done.
  - assert (Hstep : ∀ name, size (collectNames user rest ({[name]} ∪ acc))
                            ≤ S (length rest + size acc)).
    { intros name. etrans; [apply IH|].
      rewrite size_union_alt, size_singleton.
      assert (size (acc ∖ {[name]}) ≤ size acc); [|lia].
      apply subseteq_size. intros x Hx. by apply elem_of_difference in Hx as [? _]. }
    destruct (N.eqb i 0); [etrans; [apply IH | lia]|].
    destruct (user i); [apply Hstep | etrans; [apply IH | lia]].
Qed.

(** X4: after a refresh that reaches the participants list the roster has
    at most as many entries as the list has ids. *)
Theorem fetchParticipants_roster_size sdk pc ids z :
  meetingParticipantsController sdk = Some pc →
  participantsList pc = Some ids →
  size (participants (fetchParticipants sdk z)) ≤ length ids.
Proof.
  intros Hpc Hids. unfold fetchParticipants. rewrite Hpc, Hids. simpl.
  etrans; [apply collectNames_size|]. rewrite size_empty. lia.
Qed.

Lemma fetchParticipants_roster_size_witness :
  size (participants (fetchParticipants (meeting twoAlices SDKERR_SUCCESS) fresh)) ≤ 2.
Proof.
  exact (fetchParticipants_roster_size (meeting twoAlices SDKERR_SUCCESS)
           (mkPart (Some (twoAlices.*1)) (nameOf twoAlices)) (twoAlices.*1) fresh
           eq_refl eq_refl).
Defined.

(** X5: the roster depends on which ids are listed, not on their order or
    on how often one is listed: two participants lists with the same ids and
    the same names for them give the same roster. *)
Theorem fetchParticipants_ids_as_set sdk sdk' pc pc' ids ids' z :
  meetingParticipantsController sdk = Some pc →
  participantsList pc = Some ids →
  meetingParticipantsController sdk' = Some pc' →
  participantsList pc' = Some ids' →
  (∀ userId, userId ∈ ids ↔ userId ∈ ids') →
  (∀ userId, userId ∈ ids → userByUserID pc userId = userByUserID pc' userId) →
  fetchParticipants sdk z = fetchParticipants sdk' z.
Proof.
  intros Hpc Hids Hpc' Hids' Hsame Hnames.
  unfold fetchParticipants. rewrite Hpc, Hids, Hpc', Hids'. f_equal.
  apply set_eq. intros name. rewrite !collectNames_elem.
  split; (intros [H|(u & Hu & Hu0 & Hname)]; [by left | right; exists u]).
  - split; [by apply Hsame | split; [done|]]. by rewrite <- Hnames.
  - split; [by apply Hsame | split; [done|]]. rewrite Hnames; [done|]. by apply Hsame.
Qed.

Lemma fetchParticipants_ids_as_set_witness :
  fetchParticipants (meeting aliceAndZed SDKERR_SUCCESS) fresh =
  fetchParticipants (meeting zedAliceZed SDKERR_SUCCESS) fresh.
Proof.
  apply (fetchParticipants_ids_as_set
           (meeting aliceAndZed SDKERR_SUCCESS) (meeting zedAliceZed SDKERR_SUCCESS)
           (mkPart (Some (aliceAndZed.*1)) (nameOf aliceAndZed))
           (mkPart (Some (zedAliceZed.*1)) (nameOf zedAliceZed))
           (aliceAndZed.*1) (zedAliceZed.*1) fresh); try reflexivity.
  - intros userId. simpl. rewrite !elem_of_cons, !elem_of_nil. tauto.
  - intros userId. simpl. rewrite !elem_of_cons, elem_of_nil.
    intros [->|[->|[]]]; reflexivity.
Defined.

(** X6: a poll cycle in which the participants controller is missing does
    not skip the evaluation: the roster is kept as it was and the parsed poll
    result is applied to it. *)
Theorem pollCycle_without_controller cy jsonData users z :
  meetingParticipantsController (cycleSdk cy) = None →
  cycleResponse cy = Parsed jsonData →
  readConsentingUsers jsonData = Some users →
  pollCycle cy z =
    ((onConsentUpdate (cycleSdk cy) users z).1,
     EvFetchConsent :: (onConsentUpdate (cycleSdk cy) users z).2, false).
Proof.
  intros Hpc Hresp Husers. unfold pollCycle, fetchParticipants.
  rewrite Hpc, Hresp, Husers. by destruct (onConsentUpdate _ _ _).
Qed.

Lemma pollCycle_without_controller_witness :
  (pollCycle (mkCycle noController (response ["Alice"])) aliceUnknown).1.1 =
    mkZoom {["Alice"]} {["Alice" := true]} true.
Proof.
  rewrite (pollCycle_without_controller (mkCycle noController (response ["Alice"]))
             (JObject [("consenting_users", JArray [JString "Alice"])]) ["Alice"]
             aliceUnknown eq_refl eq_refl eq_refl).
  by vm_compute.
Defined.

(** ** Repeating and reordering poll results *)

Lemma assignConsent_idempotent users consenting (c : gmap string bool) :
  assignConsent users consenting (assignConsent users consenting c) =
    assignConsent users consenting c.
Proof.
  apply map_eq. intros id. rewrite !assignConsent_lookup.
  by destruct (decide (id ∈ users)).
Qed.

Lemma assignConsent_same_members users consenting consenting' (c : gmap string bool) :
  (∀ id, id ∈ consenting ↔ id ∈ consenting') →
  assignConsent users consenting c = assignConsent users consenting' c.
Proof.
  intros Hsame. apply map_eq. intros id. rewrite !assignConsent_lookup.
  destruct (decide (id ∈ users)); [|done]. f_equal. by apply bool_decide_ext.
Qed.

(** X7: applying the same poll result a second time changes nothing in the
    object, and it repeats the first application's effect in full: the
    recording-start call or the reminder is issued again. *)
Theorem onConsentUpdate_repeated sdk users z :
  onConsentUpdate sdk users (onConsentUpdate sdk users z).1 =
    onConsentUpdate sdk users z.
Proof.
  rewrite (onConsentUpdate_eq sdk users (onConsentUpdate sdk users z).1).
  rewrite onConsentUpdate_participants, onConsentUpdate_store, onConsentUpdate_flag.
  rewrite assignConsent_idempotent.
  assert (rosterInPoll (onConsentUpdate sdk users z).1 users = rosterInPoll z users)
    as ->.
  { unfold rosterInPoll. by rewrite onConsentUpdate_participants. }
  rewrite (onConsentUpdate_eq sdk users z).
  by destruct (rosterInPoll z users).
Qed.

(** X8: only membership in the poll result counts.  Two poll results with
    the same members, in whatever order and multiplicity, lead to the same
    state and the same effects. *)
Theorem onConsentUpdate_poll_as_set sdk users users' z :
  (∀ id, id ∈ users ↔ id ∈ users') →
  onConsentUpdate sdk users z = onConsentUpdate sdk users' z.
Proof.
  intros Hsame. rewrite !onConsentUpdate_eq.
  rewrite (assignConsent_same_members _ users users') by done.
  assert (rosterInPoll z users = rosterInPoll z users') as ->; [|done].
  apply eq_true_iff_eq. rewrite !rosterInPoll_spec.
  split; intros H id Hin; apply Hsame, H, Hin.
Qed.

Lemma onConsentUpdate_poll_as_set_witness :
  onConsentUpdate (meeting aliceAndZed SDKERR_SUCCESS) ["Alice"; "Zed"] aliceUnknown =
  onConsentUpdate (meeting aliceAndZed SDKERR_SUCCESS) ["Zed"; "Alice"; "Zed"] aliceUnknown.
Proof.
  apply (onConsentUpdate_poll_as_set (meeting aliceAndZed SDKERR_SUCCESS)
           ["Alice"; "Zed"] ["Zed"; "Alice"; "Zed"] aliceUnknown).
  intros id. rewrite !elem_of_cons, !elem_of_nil. tauto.
Defined.

(** X9: when some roster id is missing from the poll result, the update
    starts nothing, leaves the flag alone and hands [sendMessage] the sentence
    "Please provide your consent for recording." followed, for each roster id
    missing from the poll result, by a line feed, "- " and the id, the ids in
    ascending order; at least one id is named. *)
Theorem onConsentUpdate_reminder_names sdk users z :
  rosterInPoll z users = false →
  (onConsentUpdate sdk users z).2 =
    sendMessage sdk
      ("Please provide your consent for recording." +:+
       foldr (λ name rest, String "010" ("- " +:+ name) +:+ rest) ""
             (filter (λ user, user ∉ users) (rosterOrder (participants z)))) ∧
  filter (λ user, user ∉ users) (rosterOrder (participants z)) ≠ [] ∧
  StronglySorted String.le
    (filter (λ user, user ∉ users) (rosterOrder (participants z))) ∧
  (∀ id, id ∈ filter (λ user, user ∉ users) (rosterOrder (participants z)) ↔
         id ∈ participants z ∧ id ∉ users) ∧
  starts (onConsentUpdate sdk users z).2 = 0 ∧
  recordingStarted (onConsentUpdate sdk users z).1 = recordingStarted z.
Proof.
  intros Hgate. rewrite onConsentUpdate_starts, onConsentUpdate_flag.
  rewrite onConsentUpdate_eq, Hgate. simpl.
  split; [|split; [|split; [|split; [|done]]]].
  - f_equal. rewrite buildReminder_text, reminder_lines. unfold reminderHeader.
    do 2 f_equal.
    apply filter_agree. intros user Hin. rewrite assignConsent_lookup.
    rewrite decide_True by done.
    destruct (decide (user ∈ users)) as [Hyes|Hno].
    + rewrite bool_decide_eq_true_2 by done. split; [intros H; by destruct H | done].
    + rewrite bool_decide_eq_false_2 by done. split; [done | discriminate].
  - intros Hnil.
    assert (rosterInPoll z users = true) as Htrue; [|congruence].
    apply rosterInPoll_spec. intros id Hin.
    destruct (decide (id ∈ users)) as [|Hno]; [done|].
    assert (id ∈ filter (λ user, user ∉ users) (rosterOrder (participants z))) as Hid.
    { apply list_elem_of_filter. split; [done | by apply elem_of_rosterOrder]. }
    rewrite Hnil in Hid. inversion Hid.
  - pose proof (rosterOrder_sorted (participants z)) as Hsorted.
    induction Hsorted as [|name names Hsorted IH Hall]; [constructor|].
    rewrite filter_cons. destruct (decide (name ∉ users)); [|done].
    constructor; [done|]. apply Forall_forall. intros other Hother.
    apply list_elem_of_filter in Hother as [_ Hother].
    by eapply Forall_forall in Hall.
  - intros id. rewrite list_elem_of_filter, elem_of_rosterOrder. tauto.
Qed.

Lemma onConsentUpdate_reminder_names_witness :
  (onConsentUpdate (meeting zedAliceBob SDKERR_SUCCESS) ["Alice"]
     (fetchParticipants (meeting zedAliceBob SDKERR_SUCCESS) fresh)).2 =
    [EvChat "Please provide your consent for recording.
- Bob
- Zed"].
Proof.
  destruct (onConsentUpdate_reminder_names (meeting zedAliceBob SDKERR_SUCCESS)
              ["Alice"] (fetchParticipants (meeting zedAliceBob SDKERR_SUCCESS) fresh)
              eq_refl) as (-> & _).
  by vm_compute.
Defined.

(** ** Repeating the reminder *)

(** X10: a second reminder right after the first writes nothing more to the
    store and sends the same text again. *)
Theorem sendConsentReminder_repeated sdk z :
  sendConsentReminder sdk (sendConsentReminder sdk z).1 = sendConsentReminder sdk z.
Proof.
  unfold sendConsentReminder.
  pose proof (buildReminder_lookup (rosterOrder (participants z)) (consentStatus z)
                reminderHeader) as Hlookup.
  pose proof (buildReminder_text (rosterOrder (participants z)) (consentStatus z)
                reminderHeader) as Htext.
  destruct (buildReminder (rosterOrder (participants z)) (consentStatus z) reminderHeader)
    as [c text]. simpl in *.
  assert (Hpresent : ∀ id, id ∈ rosterOrder (participants z) → is_Some (c !! id)).
  { intros id Hin. rewrite Hlookup.
    destruct (consentStatus z !! id) as [b|] eqn:E.
    - rewrite decide_False by (intros [_ ?]; done). eauto.
    - rewrite decide_True by done. eauto. }
  pose proof (buildReminder_present _ c reminderHeader Hpresent) as Hsame.
  pose proof (buildReminder_text (rosterOrder (participants z)) c reminderHeader) as Htext'.
  destruct (buildReminder (rosterOrder (participants z)) c reminderHeader) as [c' text'].
  simpl in *. subst c'. unfold set_consentStatus. simpl. do 3 f_equal.
  rewrite Htext, Htext'. f_equal. apply filter_agree. intros user Hin.
  rewrite Hlookup.
  destruct (consentStatus z !! user) as [b|] eqn:E.
  - rewrite decide_False by (intros [_ ?]; done). done.
  - rewrite decide_True by done. split; done.
Qed.

(** X11: when every roster id has a true entry, and so also when the roster
    is empty, [sendConsentReminder] still sends a message: the bare header,
    naming nobody.  The object is left as it was. *)
Theorem sendConsentReminder_header_only sdk z :
  (allOfRoster (rosterOrder (participants z)) (consentStatus z)).1 = true →
  sendConsentReminder sdk z = (z, sendMessage sdk reminderHeader).
Proof.
  intros Hall. pose proof (proj1 (allOfRoster_true _ _) Hall) as Htrue.
  clear Hall. rename Htrue into Hall. unfold sendConsentReminder.
  pose proof (buildReminder_text (rosterOrder (participants z)) (consentStatus z)
                reminderHeader) as Htext.
  assert (Hpresent : ∀ id, id ∈ rosterOrder (participants z) →
                           is_Some (consentStatus z !! id)).
  { intros id Hin. rewrite (Hall id Hin). eauto. }
  pose proof (buildReminder_present _ _ reminderHeader Hpresent) as Hsame.
  destruct (buildReminder _ _ _) as [c text]. simpl in *. subst c.
  rewrite Htext.
  assert (filter (λ user, consentStatus z !! user ≠ Some true)
                 (rosterOrder (participants z)) = []) as ->.
  { revert Hall. clear. induction (rosterOrder (participants z)) as [|u l IH];
      intros Hall; [done|].
    rewrite filter_cons_False.
    - apply IH. intros id Hin. apply Hall. by right.
    - intros H. apply H, Hall. by left. }
  by destruct z.
Qed.

Lemma sendConsentReminder_header_only_witness :
  sendConsentReminder (meeting [] SDKERR_SUCCESS) fresh =
    (fresh, [EvChat reminderHeader]).
Proof.
  exact (sendConsentReminder_header_only (meeting [] SDKERR_SUCCESS) fresh eq_refl).
Defined.

(** ** Counting what the poll loop does *)

Lemma fetches_app (tr1 tr2 : list Event) :
  fetches (tr1 ++ tr2) = fetches tr1 + fetches tr2.
Proof. unfold fetches. by rewrite filter_app, length_app. Qed.

Lemma chats_app (tr1 tr2 : list Event) : chats (tr1 ++ tr2) = chats tr1 + chats tr2.
Proof. unfold chats. by rewrite filter_app, length_app. Qed.

Lemma fetches_sendMessage sdk message : fetches (sendMessage sdk message) = 0.
Proof.
  unfold sendMessage.
  destruct (meetingChatController sdk) as [chat|]; [|done].
  by destruct (chatMessageBuilder chat), (chatBuild chat).
Qed.

Lemma fetches_startRawRecording sdk : fetches (startRawRecording sdk).1 = 0.
Proof.
  unfold startRawRecording.
  destruct (hasError (canStartRawRecording _)).
  - assert (Hreq : fetches (sendConsentRequest (meetingChatController sdk)).1 = 0).
    { by destruct (meetingChatController sdk) as [[[] [] ?]|]. }
    destruct (sendConsentRequest _) as [tr err]. simpl in Hreq.
    destruct (hasError err); simpl.
    + change (EvStartRawRecording :: tr) with ([EvStartRawRecording] ++ tr).
      by rewrite fetches_app, Hreq.
    + change (EvStartRawRecording :: tr ++ [EvSdkRequestPrivilege])
        with ([EvStartRawRecording] ++ tr ++ [EvSdkRequestPrivilege]).
      by rewrite !fetches_app, Hreq.
  - by destruct (hasError (sdkStartRawRecording _)).
Qed.

Lemma fetches_onConsentUpdate sdk users z : fetches (onConsentUpdate sdk users z).2 = 0.
Proof.
  rewrite onConsentUpdate_eq. destruct (rosterInPoll z users); simpl.
  - apply fetches_startRawRecording.
  - apply fetches_sendMessage.
Qed.

Lemma fetches_pollCycle cy z : fetches (pollCycle cy z).1.2 = 1.
Proof.
  unfold pollCycle. destruct (cycleResponse cy) as [|jsonData]; [done|].
  destruct (readConsentingUsers jsonData) as [users|]; [|done].
  pose proof (fetches_onConsentUpdate (cycleSdk cy) users
                (fetchParticipants (cycleSdk cy) z)) as H.
  destruct (onConsentUpdate _ _ _) as [z2 tr]. simpl in *.
  change (EvFetchConsent :: tr) with ([EvFetchConsent] ++ tr).
  by rewrite fetches_app, H.
Qed.

(** X12: the loop makes one consent fetch per pass and none besides: over
    the given cycles it never fetches more often than there are cycles, and
    while it is still running it has fetched exactly once per cycle. *)
Theorem checkConsentStatus_one_fetch_per_pass cycles z :
  fetches (checkConsentStatus cycles z).1.2 ≤ length cycles ∧
  ((checkConsentStatus cycles z).2 = Running →
   fetches (checkConsentStatus cycles z).1.2 = length cycles).
Proof.
  revert z. induction cycles as [|cy rest IH]; intros z.
  - simpl. by destruct (recordingStarted z).
  - cbn [checkConsentStatus length]. destruct (recordingStarted z).
    { simpl. split; [unfold fetches; simpl; lia | discriminate]. }
    pose proof (fetches_pollCycle cy z) as Hone.
    destruct (pollCycle cy z) as [[z1 tr1] raised]. simpl in Hone.
    destruct raised; simpl.
    { split; [lia | discriminate]. }
    destruct (IH z1) as [Hle Hrun].
    destruct (checkConsentStatus rest z1) as [[z2 tr2] st]. simpl in *.
    rewrite fetches_app, Hone. split; [lia|]. intros Hst. by rewrite Hrun.
Qed.

(** X13: reminders are not held back.  While the loop is running, every
    pass whose response parsed, in a meeting whose chat can deliver, has sent
    one reminder: after [n] such passes [n] reminders are out. *)
Theorem checkConsentStatus_reminder_every_pass cycles z :
  forallb (λ cy, negb (parseFails cy) && chatReady cy) cycles = true →
  (checkConsentStatus cycles z).2 = Running →
  chats (checkConsentStatus cycles z).1.2 = length cycles ∧
  starts (checkConsentStatus cycles z).1.2 = 0.
Proof.
  revert z. induction cycles as [|cy rest IH]; intros z Hall Hrun.
  - simpl. by destruct (recordingStarted z).
  - apply andb_prop in Hall as [Hcy Hall]. apply andb_prop in Hcy as [Hparse Hchat].
    revert Hrun. cbn [checkConsentStatus length].
    destruct (recordingStarted z) eqn:Hz; [discriminate|].
    unfold pollCycle, parseFails, chatReady in *.
    destruct (cycleResponse cy) as [|jsonData]; [discriminate|].
    destruct (readConsentingUsers jsonData) as [users|]; [|discriminate].
    rewrite onConsentUpdate_eq.
    destruct (rosterInPoll (fetchParticipants (cycleSdk cy) z) users) eqn:Hgate.
    + simpl. rewrite checkConsentStatus_started by done. discriminate.
    + cbn [fst snd]. set (z1 := mkZoom _ _ _).
      set (text := (buildReminder _ _ _).2).
      assert (Hsend : sendMessage (cycleSdk cy) text = [EvChat text]).
      { unfold sendMessage. destruct (meetingChatController (cycleSdk cy)) as [chat|];
          [|discriminate].
        by destruct (chatMessageBuilder chat), (chatBuild chat). }
      rewrite Hsend. specialize (IH z1 Hall).
      destruct (checkConsentStatus rest z1) as [[z2 tr2] st]. simpl in *.
      intros ->. destruct (IH eq_refl) as [Hchats Hstarts].
      change (EvFetchConsent :: EvChat text :: tr2)
        with ([EvFetchConsent; EvChat text] ++ tr2).
      rewrite chats_app, starts_app, Hchats, Hstarts. done.
Qed.

Lemma checkConsentStatus_reminder_every_pass_witness :
  chats (checkConsentStatus [waitingCycle; waitingCycle; waitingCycle] fresh).1.2 = 3.
Proof.
  exact (proj1 (checkConsentStatus_reminder_every_pass
                  [waitingCycle; waitingCycle; waitingCycle] fresh eq_refl eq_refl)).
Defined.

(** X14: running the loop over [cycles ++ more] is running it over [cycles]
    and, if it is still running then, carrying on over [more] from the state
    reached; once it has exited or was left by an exception, further cycles
    change nothing. *)
Theorem checkConsentStatus_app cycles more z :
  checkConsentStatus (cycles ++ more) z =
    match (checkConsentStatus cycles z).2 with
    | Running =>
        ((checkConsentStatus more (checkConsentStatus cycles z).1.1).1.1,
         (checkConsentStatus cycles z).1.2
           ++ (checkConsentStatus more (checkConsentStatus cycles z).1.1).1.2,
         (checkConsentStatus more (checkConsentStatus cycles z).1.1).2)
    | _ => checkConsentStatus cycles z
    end.
Proof.
  revert z. induction cycles as [|cy rest IH]; intros z.
  - simpl. destruct (recordingStarted z) eqn:Hz; simpl.
    + by rewrite checkConsentStatus_started.
    + by destruct (checkConsentStatus more z) as [[z2 tr2] st].
  - rewrite <- app_comm_cons. cbn [checkConsentStatus].
    destruct (recordingStarted z); [done|].
    destruct (pollCycle cy z) as [[z1 tr1] raised].
    destruct raised; [done|]. rewrite IH.
    destruct (checkConsentStatus rest z1) as [[z2 tr2] st]. simpl.
    destruct st; try done.
    destruct (checkConsentStatus more z2) as [[z3 tr3] st3]. simpl.
    by rewrite app_assoc.
Qed.

(** ** The response as the source has it *)

Lemma outsider_blocks cy z :
  outsiderPresent cy = true →
  rosterInPoll (fetchParticipants (cycleSdk cy) z) hardwiredNames = false.
Proof.
  unfold outsiderPresent, fetchParticipants. intros Hout.
  destruct (meetingParticipantsController (cycleSdk cy)) as [pc|]; [|discriminate].
  destruct (participantsList pc) as [ids|]; [|discriminate].
  apply existsb_exists in Hout as (userId & Hin & Hid).
  apply andb_prop in Hid as [Hne Hname].
  destruct (userByUserID pc userId) as [name|] eqn:Ename; [|discriminate].
  apply negb_true_iff, bool_decide_eq_false_1 in Hname.
  destruct (rosterInPoll _ _) eqn:Hgate; [|done]. exfalso. apply Hname.
  rewrite rosterInPoll_spec in Hgate. apply Hgate. simpl.
  apply collectNames_elem. right. exists userId.
  split; [by apply list_elem_of_In|]. split; [|done].
  intros ->. discriminate.
Qed.

(** X15: with the response the source hard-wires in place of the HTTP
    request, only the two names in it can ever consent.  As long as every
    refreshed participants list holds somebody under another name, the loop
    never starts the recording and never exits, however many passes it
    makes. *)
Theorem hardwired_response_never_admits_others cycles z :
  recordingStarted z = false →
  Forall (λ cy, cycleResponse cy = dummyApiResponse) cycles →
  forallb outsiderPresent cycles = true →
  (checkConsentStatus cycles z).2 = Running ∧
  starts (checkConsentStatus cycles z).1.2 = 0 ∧
  recordingStarted (checkConsentStatus cycles z).1.1 = false.
Proof.
  revert z. induction cycles as [|cy rest IH]; intros z Hz Hdummy Hout.
  - simpl. by rewrite Hz.
  - apply Forall_cons in Hdummy as [Hresp Hdummy].
    apply andb_prop in Hout as [Hcy Hout].
    cbn [checkConsentStatus]. rewrite Hz. unfold pollCycle. rewrite Hresp.
    unfold dummyApiResponse. cbv beta iota.
    change (readConsentingUsers _) with (Some hardwiredNames).
    cbv beta iota. rewrite onConsentUpdate_eq, (outsider_blocks cy z Hcy).
    cbn [fst snd]. set (z1 := mkZoom _ _ _).
    assert (Hz1 : recordingStarted z1 = false).
    { unfold z1. simpl. by rewrite fetchParticipants_flag. }
    destruct (IH z1 Hz1 Hdummy Hout) as (Hrun & Hstarts & Hflag).
    destruct (checkConsentStatus rest z1) as [[z2 tr2] st]. simpl in *.
    repeat split; try done.
    change (EvFetchConsent :: ?a ++ tr2) with ([EvFetchConsent] ++ a ++ tr2).
    rewrite !starts_app, starts_sendMessage, Hstarts. done.
Qed.

Lemma hardwired_response_never_admits_others_witness :
  (checkConsentStatus [guestCycle; guestCycle; guestCycle] fresh).2 = Running.
Proof.
  refine (proj1 (hardwired_response_never_admits_others
                   [guestCycle; guestCycle; guestCycle] fresh eq_refl _ eq_refl)).
  repeat constructor.
Defined.

(** X16: a response object whose [consenting_users] member is an array of
    strings is read as exactly those strings, in array order and with
    repetitions kept. *)
Theorem readConsentingUsers_listed members users :
  findMember "consenting_users" members = Some (JArray (JString <$> users)) →
  readConsentingUsers (JObject members) = Some users.
Proof.
  intros Hmember. unfold readConsentingUsers, jsonMember. rewrite Hmember.
  cbn [jsonItems]. clear Hmember. induction users as [|user rest IH]; [done|].
  rewrite fmap_cons. cbn [collectUsers asString]. by rewrite IH.
Qed.

Lemma readConsentingUsers_listed_witness :
  readConsentingUsers
    (JObject [("status", JString "ok");
              ("consenting_users", JArray [JString "Zed"; JString "Alice"; JString "Zed"])])
    = Some ["Zed"; "Alice"; "Zed"].
Proof.
  exact (readConsentingUsers_listed
           [("status", JString "ok");
            ("consenting_users", JArray [JString "Zed"; JString "Alice"; JString "Zed"])]
           ["Zed"; "Alice"; "Zed"] eq_refl).
Defined.

(** ** Threads *)

Lemma count_insert {A} (f : A → bool) (l : list A) i t t' :
  l !! i = Some t →
  length (filter f (<[i:=t']> l)) + (if f t then 1 else 0) =
    length (filter f l) + (if f t' then 1 else 0).
Proof.
  revert i. induction l as [|a l IH]; intros i Hi; [done|].
  destruct i as [|i]; simpl in Hi.
  - injection Hi as ->. simpl. rewrite !filter_cons.
    destruct (f t) eqn:Et, (f t') eqn:Et'; simpl; lia.
  - simpl. rewrite !filter_cons. specialize (IH i Hi).
    destruct (f a); simpl; lia.
Qed.

Lemma stepTask_kind cy t z :
  is_poller (stepTask cy t z).1.1 = is_poller t ∧
  is_reminder (stepTask cy t z).1.1 = is_reminder t.
Proof.
  destruct t as [[]|[]]; simpl; try done.
  - destruct (recordingStarted z); [done|]. by destruct (sendConsentReminder _ _).
  - by destruct (recordingStarted z).
  - by destruct (pollCycle cy z) as [[z' tr] []].
Qed.

Lemma step_pollers i cy sys : pollers (step i cy sys) = pollers sys.
Proof.
  unfold step. destruct (tasks sys !! i) as [t|] eqn:Hi; [|done].
  destruct (stepTask_kind cy t (zoom sys)) as [Hkp _].
  destruct (stepTask cy t (zoom sys)) as [[t' z'] tr']. simpl in *.
  unfold pollers. simpl.
  pose proof (count_insert is_poller _ i t t' Hi) as Hcp.
  rewrite Hkp in Hcp. lia.
Qed.

(** ** A reminder between two updates *)

(** X24: a reminder leaves no mark on later updates.  The false entries it
    inserts are for roster ids, and the next update overwrites the entry of
    every roster id, so an update after a reminder gives the same state and
    the same effects as the update alone. *)
Theorem onConsentUpdate_after_reminder sdk sdk' users z :
  onConsentUpdate sdk users (sendConsentReminder sdk' z).1 =
    onConsentUpdate sdk users z.
Proof.
  rewrite !onConsentUpdate_eq.
  assert (Hp : participants (sendConsentReminder sdk' z).1 = participants z).
  { unfold sendConsentReminder. by destruct (buildReminder _ _ _). }
  assert (Hc : assignConsent (rosterOrder (participants z)) users
                 (consentStatus (sendConsentReminder sdk' z).1) =
               assignConsent (rosterOrder (participants z)) users (consentStatus z)).
  { apply map_eq. intros id. rewrite !assignConsent_lookup.
    destruct (decide (id ∈ rosterOrder (participants z))) as [Hin|Hout]; [done|].
    unfold sendConsentReminder.
    pose proof (buildReminder_lookup (rosterOrder (participants z)) (consentStatus z)
                  reminderHeader id) as Hlookup.
    destruct (buildReminder _ _ _) as [c text]. simpl in *.
    rewrite Hlookup, decide_False; [done|]. by intros [? _]. }
  assert (Hf : recordingStarted (sendConsentReminder sdk' z).1 = recordingStarted z).
  { apply sendConsentReminder_flag. }
  assert (Hg : rosterInPoll (sendConsentReminder sdk' z).1 users = rosterInPoll z users).
  { unfold rosterInPoll. by rewrite Hp. }
  by rewrite Hp, Hc, Hf, Hg.
Qed.

(** ** One poller among reminder threads *)

Lemma count_le {A} (f g : A → bool) (l : list A) :
  (∀ a, f a = true → g a = true) →
  length (filter f l) ≤ length (filter g l).
Proof.
  intros Himp. induction l as [|a l IH]; [done|].
  rewrite !filter_cons. specialize (Himp a).
  destruct (f a), (g a); simpl; try lia; by specialize (Himp eq_refl).
Qed.

Lemma count_pos {A} (f : A → bool) (l : list A) i a :
  l !! i = Some a → f a = true → 0 < length (filter f l).
Proof.
  intros Hi Hf.
  assert (a ∈ filter f l) as Hin.
  { apply list_elem_of_filter. split; [by rewrite Hf | by eapply list_elem_of_lookup_2]. }
  destruct (filter f l); [inversion Hin | simpl; lia].
Qed.

Lemma inBody_le_pollers sys : inBody sys ≤ pollers sys.
Proof. apply count_le. by intros [|[]]. Qed.

(** What holds of a system with one poller all along. *)
Definition onePollerInv (sys : System) : Prop :=
  pollers sys = 1 ∧
  starts (trace sys) ≤ 1 ∧
  (starts (trace sys) = 1 → recordingStarted (zoom sys) = true) ∧
  (recordingStarted (zoom sys) = true → inBody sys = 0).

Lemma step_onePollerInv i cy sys : onePollerInv sys → onePollerInv (step i cy sys).
Proof.
  intros (Hp & Hle & Hone & Hbody). unfold onePollerInv.
  rewrite step_pollers. split; [done|].
  pose proof (inBody_le_pollers sys) as Hib.
  unfold step. destruct (tasks sys !! i) as [t|] eqn:Hi; [|done].
  unfold inBody in *.
  assert (Hcount : ∀ t', length (filter is_inBody (<[i:=t']> (tasks sys)))
                         + (if is_inBody t then 1 else 0)
                         = length (filter is_inBody (tasks sys))
                           + (if is_inBody t' then 1 else 0)).
  { intros t'. by apply count_insert. }
  destruct t as [[]|[]]; cbn [stepTask].
  - specialize (Hcount (Reminder false)). simpl in Hcount.
    destruct (recordingStarted (zoom sys)) eqn:Hz.
    + simpl. rewrite app_nil_r, Hz. specialize (Hbody eq_refl).
      repeat split; try done. lia.
    + pose proof (sendConsentReminder_flag (cycleSdk cy) (zoom sys)) as Hflag.
      assert (Hst : starts (sendConsentReminder (cycleSdk cy) (zoom sys)).2 = 0).
      { unfold sendConsentReminder. destruct (buildReminder _ _ _). simpl.
        apply starts_sendMessage. }
      destruct (sendConsentReminder _ _) as [z' tr]. simpl in *.
      rewrite starts_app, Hst, Nat.add_0_r, Hflag, Hz.
      split; [done|]. split; [|discriminate].
      intros Hs. specialize (Hone Hs). congruence.
  - specialize (Hcount (Reminder false)). simpl in *. rewrite app_nil_r.
    split; [done|]. split; [done|]. intros Hz. specialize (Hbody Hz). lia.
  - destruct (recordingStarted (zoom sys)) eqn:Hz.
    + specialize (Hcount (Poller Finished)). simpl in *. rewrite app_nil_r, Hz.
      specialize (Hbody eq_refl). split; [done|]. split; [done|]. intros _. lia.
    + simpl. rewrite app_nil_r, Hz. split; [done|]. split; [|discriminate].
      intros Hs. specialize (Hone Hs). congruence.
  - assert (Hz : recordingStarted (zoom sys) = false).
    { destruct (recordingStarted (zoom sys)) eqn:Hz; [|done].
      specialize (Hbody eq_refl).
      pose proof (count_pos is_inBody _ i _ Hi eq_refl). lia. }
    assert (Hzero : starts (trace sys) = 0).
    { destruct (decide (starts (trace sys) = 1)) as [Hs|]; [|lia].
      specialize (Hone Hs). congruence. }
    destruct (pollCycle_flag cy (zoom sys)) as (Hle' & Hflag & _).
    specialize (Hcount (Poller (if (pollCycle cy (zoom sys)).2 then Raised else AtGuard))).
    destruct (pollCycle cy (zoom sys)) as [[z' tr] raised]. simpl in *.
    rewrite starts_app, Hzero, Hflag, Hz, orb_false_r. simpl.
    split; [done|]. split.
    + intros Hs. by apply Nat.eqb_eq.
    + intros _. destruct raised; simpl in Hcount; lia.
  - specialize (Hcount (Poller Finished)). simpl in *. rewrite app_nil_r.
    split; [done|]. split; [done|]. intros Hz. specialize (Hbody Hz). lia.
  - specialize (Hcount (Poller Raised)). simpl in *. rewrite app_nil_r.
    split; [done|]. split; [done|]. intros Hz. specialize (Hbody Hz). lia.
Qed.

(** X25: with a single poller thread the recording-start operation is
    invoked at most once under every schedule, whatever number of delayed
    reminder threads run beside it. *)
Theorem single_poller_starts_once schedule sys :
  pollers sys = 1 →
  recordingStarted (zoom sys) = false →
  starts (trace sys) = 0 →
  starts (trace (run schedule sys)) ≤ 1.
Proof.
  intros Hp Hz Hs.
  assert (Hinv : onePollerInv sys).
  { repeat split; [done | lia | intros H; congruence | intros H; congruence]. }
  clear Hp Hz Hs. revert sys Hinv.
  induction schedule as [|[i cy] rest IH]; intros sys Hinv.
  - by destruct Hinv as (_ & Hle & _).
  - cbn [run]. by apply IH, step_onePollerInv.
Qed.

Lemma single_poller_starts_once_witness :
  starts (trace (run onePollerBusy (startConsentCheck boot))) ≤ 1.
Proof.
  exact (single_poller_starts_once onePollerBusy (startConsentCheck boot)
           eq_refl eq_refl eq_refl).
Defined.

(** * Properties of the start-up code *)

Lemma hasError_true e : hasError e = true ↔ e ≠ SDKERR_SUCCESS.
Proof. destruct e; simpl; split; (done || discriminate). Qed.

(** Turns every [hasError] fact among the hypotheses into an equation or a
    disequation with [SDKERR_SUCCESS]. *)
Ltac error_facts :=
  repeat match goal with
         | H : hasError _ = false |- _ => apply hasError_false in H
         | H : hasError _ = true |- _ => apply hasError_true in H
         end.

(** X19: [init] makes its five SDK calls in a fixed order and stops at the
    first that fails, answering that call's error; it answers success iff all
    five succeeded, and the auth service is created iff the four calls before
    it succeeded. *)
Theorem init_stops_at_first_failure b :
  Lifecycle.init b =
    Lifecycle.untilFailure
      [(Lifecycle.CallInitSDK, Lifecycle.initSDK b);
       (Lifecycle.CallCreateMeetingService, Lifecycle.createMeetingService b);
       (Lifecycle.CallCreateSettingService, Lifecycle.createSettingService b);
       (Lifecycle.CallMeetingSetEvent, Lifecycle.meetingSetEvent b);
       (Lifecycle.CallCreateAuthService, Lifecycle.createAuthService b)] ∧
  ((Lifecycle.init b).2 = SDKERR_SUCCESS ↔
   Lifecycle.initSDK b = SDKERR_SUCCESS ∧
   Lifecycle.createMeetingService b = SDKERR_SUCCESS ∧
   Lifecycle.createSettingService b = SDKERR_SUCCESS ∧
   Lifecycle.meetingSetEvent b = SDKERR_SUCCESS ∧
   Lifecycle.createAuthService b = SDKERR_SUCCESS) ∧
  (Lifecycle.CallCreateAuthService ∈ (Lifecycle.init b).1 ↔
   Lifecycle.initSDK b = SDKERR_SUCCESS ∧
   Lifecycle.createMeetingService b = SDKERR_SUCCESS ∧
   Lifecycle.createSettingService b = SDKERR_SUCCESS ∧
   Lifecycle.meetingSetEvent b = SDKERR_SUCCESS).
Proof.
  unfold Lifecycle.init, Lifecycle.createServices. cbn [Lifecycle.untilFailure].
  destruct (hasError (Lifecycle.initSDK b)) eqn:H1;
    [|destruct (hasError (Lifecycle.createMeetingService b)) eqn:H2;
      [|destruct (hasError (Lifecycle.createSettingService b)) eqn:H3;
        [|destruct (hasError (Lifecycle.meetingSetEvent b)) eqn:H4]]];
    cbn [fst snd]; error_facts; (split; [reflexivity|]);
    rewrite ?elem_of_cons, ?elem_of_nil; split; split;
    try (intros (? & ? & ? & ? & ?); done); try (intros (? & ? & ? & ?); done);
    try done; try (intros; repeat split; done);
    try (intros H; exfalso; repeat destruct H as [H|H]; done).
  intros _. do 4 right. by left.
Qed.

Lemma empty_spec s : Lifecycle.empty s = true ↔ s = "".
Proof. destruct s; simpl; split; (done || discriminate). Qed.

Lemma empty_false s : Lifecycle.empty s = false ↔ s ≠ "".
Proof. destruct s; simpl; split; (done || discriminate). Qed.

(** X20: [auth] reaches [SDKAuth] iff client id and client secret are not
    blank and registering the event handler succeeded.  It then answers what
    [SDKAuth] answers and presents a token generated in that very call: typed
    JWT, issued now, expiring 24 hours later, carrying the client id as
    [appKey] and the expiry as [tokenExp], signed with the client secret.
    Otherwise it answers an error and leaves the stored token and times as
    they were. *)
Theorem auth_presents_fresh_token cfg now setEvent sdkAuth st :
  ((∃ token, Lifecycle.CallSDKAuth token
               ∈ (Lifecycle.auth cfg now setEvent sdkAuth st).1.2) ↔
   Lifecycle.clientId cfg ≠ "" ∧ Lifecycle.clientSecret cfg ≠ "" ∧
   setEvent = SDKERR_SUCCESS) ∧
  (Lifecycle.clientId cfg ≠ "" → Lifecycle.clientSecret cfg ≠ "" →
   setEvent = SDKERR_SUCCESS →
   Lifecycle.auth cfg now setEvent sdkAuth st =
     (Lifecycle.mkAuthState now (now + 86400)
        (Some (Lifecycle.mkJwt "JWT" now (now + 86400) (Lifecycle.clientId cfg)
                               (now + 86400) (Lifecycle.clientSecret cfg))),
      [Lifecycle.CallAuthSetEvent;
       Lifecycle.CallSDKAuth
         (Some (Lifecycle.mkJwt "JWT" now (now + 86400) (Lifecycle.clientId cfg)
                                (now + 86400) (Lifecycle.clientSecret cfg)))],
      sdkAuth)) ∧
  (¬ (Lifecycle.clientId cfg ≠ "" ∧ Lifecycle.clientSecret cfg ≠ "" ∧
      setEvent = SDKERR_SUCCESS) →
   (Lifecycle.auth cfg now setEvent sdkAuth st).1.1 = st ∧
   hasError (Lifecycle.auth cfg now setEvent sdkAuth st).2 = true).
Proof.
  unfold Lifecycle.auth.
  destruct (Lifecycle.empty (Lifecycle.clientId cfg)) eqn:Hid;
    [|destruct (Lifecycle.empty (Lifecycle.clientSecret cfg)) eqn:Hsecret;
      [|destruct (hasError setEvent) eqn:Hset]];
    cbn [fst snd];
    rewrite ?empty_spec, ?empty_false in *; error_facts.
  - split; [|split; [done|done]].
    split; [intros [token H]; inversion H | intros (H & _); done].
  - split; [|split; [done|done]].
    split; [intros [token H]; inversion H | intros (_ & H & _); done].
  - split; [|split; [done|]].
    + split; [|intros (_ & _ & H); done].
      intros [token H]. apply list_elem_of_singleton in H. discriminate.
    + intros _. split; [done|]. by apply hasError_true.
  - split; [|split].
    + split; [done|]. intros _. eexists. right. left.
    + intros _ _ _. done.
    + intros H. destruct H. done.
Qed.

(** X21: [join] calls the SDK's [Join] iff meeting id, password and display
    name are not blank, the meeting id converts to a number, and the audio
    settings are there when raw audio is configured.  The parameters then
    carry that number, the display name and the password, with video and
    audio on and each token set iff it is configured, and [join] answers what
    [Join] answers.  When [Join] is not called, nothing else is called either
    and the outcome is not success. *)
Theorem join_reaches_sdk cfg audioSettings joinResult :
  ((∃ param, Lifecycle.CallJoin param ∈ (Lifecycle.join cfg audioSettings joinResult).1) ↔
   Lifecycle.meetingId cfg ≠ "" ∧ Lifecycle.password cfg ≠ "" ∧
   Lifecycle.displayName cfg ≠ "" ∧
   (∃ number, Lifecycle.stoull (Lifecycle.meetingId cfg) = inr number) ∧
   (Lifecycle.useRawAudio cfg = true → audioSettings = true)) ∧
  (∀ param,
     Lifecycle.CallJoin param ∈ (Lifecycle.join cfg audioSettings joinResult).1 →
     (Lifecycle.join cfg audioSettings joinResult).2 = Lifecycle.Returned joinResult ∧
     Lifecycle.stoull (Lifecycle.meetingId cfg) = inr (Lifecycle.meetingNumber param) ∧
     Lifecycle.userName param = Lifecycle.displayName cfg ∧
     Lifecycle.psw param = Lifecycle.password cfg ∧
     Lifecycle.isVideoOff param = false ∧ Lifecycle.isAudioOff param = false ∧
     Lifecycle.userZAK param = Lifecycle.nonEmpty (Lifecycle.zak cfg) ∧
     Lifecycle.app_privilege_token param = Lifecycle.nonEmpty (Lifecycle.joinToken cfg)) ∧
  ((¬ ∃ param, Lifecycle.CallJoin param
                 ∈ (Lifecycle.join cfg audioSettings joinResult).1) →
   (Lifecycle.join cfg audioSettings joinResult).1 = [] ∧
   (Lifecycle.join cfg audioSettings joinResult).2 ≠ Lifecycle.Returned SDKERR_SUCCESS).
Proof.
  unfold Lifecycle.join.
  destruct (Lifecycle.empty (Lifecycle.meetingId cfg)) eqn:Hmid;
    [|destruct (Lifecycle.empty (Lifecycle.password cfg)) eqn:Hpw;
      [|destruct (Lifecycle.empty (Lifecycle.displayName cfg)) eqn:Hname;
        [|destruct (Lifecycle.stoull (Lifecycle.meetingId cfg)) as [what|number] eqn:Hnum;
          [|destruct (Lifecycle.useRawAudio cfg) eqn:Haudio;
            [destruct audioSettings|]]]]];
    cbn [fst snd]; rewrite ?empty_spec, ?empty_false in *.
  1-4, 6: split; [split; [intros [param H]; inversion H|] | split;
                  [intros param H; inversion H | intros _; split; [done | discriminate]]].
  - intros (H & _). done.
  - intros (_ & H & _). done.
  - intros (_ & _ & H & _). done.
  - intros (_ & _ & _ & [number H] & _). discriminate.
  - intros (_ & _ & _ & _ & H). by specialize (H eq_refl).
  - split; [|split].
    + split; [intros _; repeat split; eauto | intros _; eexists; right; left].
    + intros param [H|H]%elem_of_cons; [discriminate|].
      apply list_elem_of_singleton in H. injection H as ->. done.
    + intros H. exfalso. apply H. eexists. right. left.
  - split; [|split].
    + split; [intros _; repeat split; eauto; discriminate | intros _; eexists; left].
    + intros param H. apply list_elem_of_singleton in H. injection H as ->. done.
    + intros H. exfalso. apply H. eexists. left.
Qed.

(** ** The meeting id as [join] reads it *)

Lemma digit_begins c rest :
  Lifecycle.isDigit c = true →
  Lifecycle.skipSpace (String c rest) = String c rest ∧
  Lifecycle.splitSign (String c rest) = (false, String c rest).
Proof.
  destruct c as [[] [] [] [] [] [] [] []]; intros H; try discriminate H; done.
Qed.

Lemma digits_app ds c rest acc :
  Lifecycle.allDigits ds = true → Lifecycle.digit c = None →
  Lifecycle.digits (ds +:+ String c rest) acc = Lifecycle.digits ds acc.
Proof.
  intros Hds Hc. revert acc Hds. induction ds as [|d ds IH]; intros acc Hds.
  - simpl. by rewrite Hc.
  - simpl in *. destruct (Lifecycle.digit d); [by apply IH | discriminate].
Qed.

Lemma stoull_leading_digits ds c rest :
  Lifecycle.allDigits ds = true → Lifecycle.empty ds = false →
  Lifecycle.digit c = None →
  Lifecycle.stoull (ds +:+ String c rest) = Lifecycle.stoull ds.
Proof.
  intros Hds Hne Hc. destruct ds as [|d ds]; [discriminate|].
  assert (Hd : Lifecycle.isDigit d = true).
  { unfold Lifecycle.isDigit. simpl in Hds. by destruct (Lifecycle.digit d). }
  unfold Lifecycle.stoull. change (String d ds +:+ String c rest)
    with (String d (ds +:+ String c rest)).
  destruct (digit_begins d (ds +:+ String c rest) Hd) as [-> ->].
  destruct (digit_begins d ds Hd) as [-> ->].
  change (String d (ds +:+ String c rest)) with (String d ds +:+ String c rest).
  rewrite digits_app by done.
  unfold Lifecycle.startsWithDigit. simpl. done.
Qed.

(** X22: [join] uses the leading digits of the meeting id and nothing
    after them.  A meeting id that goes on after its first digits with a
    character that is not a digit, a blank for instance, joins the meeting
    numbered by those first digits alone. *)
Theorem join_reads_leading_digits cfg ds c rest audioSettings joinResult :
  Lifecycle.allDigits ds = true →
  Lifecycle.empty ds = false →
  Lifecycle.digit c = None →
  Lifecycle.join (Lifecycle.withMeetingId (ds +:+ String c rest) cfg)
                 audioSettings joinResult =
  Lifecycle.join (Lifecycle.withMeetingId ds cfg) audioSettings joinResult.
Proof.
  intros Hds Hne Hc. unfold Lifecycle.join, Lifecycle.withMeetingId.
  cbn [Lifecycle.meetingId Lifecycle.password Lifecycle.displayName Lifecycle.zak
       Lifecycle.joinToken Lifecycle.useRawAudio].
  rewrite stoull_leading_digits by done.
  destruct ds; [discriminate|]. done.
Qed.

Lemma join_reads_leading_digits_witness :
  Lifecycle.join (Lifecycle.configFor "123 456 7890") false SDKERR_SUCCESS =
  Lifecycle.join (Lifecycle.configFor "123") false SDKERR_SUCCESS.
Proof.
  exact (join_reads_leading_digits (Lifecycle.configFor "") "123" " " "456 7890"
           false SDKERR_SUCCESS eq_refl eq_refl eq_refl).
Defined.

Lemma stoull_no_number c rest :
  Lifecycle.beginsNoNumber c = true →
  Lifecycle.stoull (String c rest) = inl Lifecycle.invalid_argument.
Proof.
  destruct c as [[] [] [] [] [] [] [] []]; intros H; try discriminate H; done.
Qed.

(** X23: a meeting id that begins with a character no number can begin
    with never reaches the SDK.  When password and display name are not
    blank, [join] ends in [std::invalid_argument], raised by the conversion;
    when one of them is blank it has returned [SDKERR_UNINITIALIZE] before
    converting.  No SDK call is made in either case. *)
Theorem join_throws_on_unreadable_id cfg c rest audioSettings joinResult :
  Lifecycle.meetingId cfg = String c rest →
  Lifecycle.beginsNoNumber c = true →
  Lifecycle.join cfg audioSettings joinResult =
    ([], if Lifecycle.empty (Lifecycle.password cfg)
            || Lifecycle.empty (Lifecycle.displayName cfg)
         then Lifecycle.Returned SDKERR_UNINITIALIZE
         else Lifecycle.Threw Lifecycle.invalid_argument).
Proof.
  intros Hmid Hc. unfold Lifecycle.join.
  rewrite Hmid, stoull_no_number by done. cbn [Lifecycle.empty].
  by destruct (Lifecycle.empty (Lifecycle.password cfg)),
              (Lifecycle.empty (Lifecycle.displayName cfg)).
Qed.

Lemma join_throws_on_unreadable_id_witness :
  Lifecycle.join (Lifecycle.configFor "meeting-123") false SDKERR_SUCCESS =
    ([], Lifecycle.Threw Lifecycle.invalid_argument).
Proof.
  exact (join_throws_on_unreadable_id (Lifecycle.configFor "meeting-123")
           "m" "eeting-123" false SDKERR_SUCCESS eq_refl eq_refl).
Defined.
